(** * HappyVille booking: the [FirebaseService] data-access layer

    A shallow embedding of [wwwroot/js/firebase-service.js] and of the
    part of the hosted document store and identity provider that the
    service drives, followed by the properties of the service.

    Layout:
    - [JS]: the values the service handles and the few JavaScript
      operators it applies to them;
    - the world (documents, session, clock, scripted outcomes of the remote
      calls) and the monad of asynchronous methods;
    - [Firestore] and [Auth]: the calls of the two SDKs;
    - the methods of [FirebaseService], in source order;
    - [Concurrent]: [updateAvailability] cut at its [await]s, to interleave
      several calls;
    - lemmas and the properties of the service. *)

From Stdlib Require Import Ascii.
From stdpp Require Import gmap strings list fin_maps pretty sorting.

#[local] Set Warnings "-register-all".
#[local] Open Scope string_scope.
#[local] Open Scope Z_scope.

(** * JavaScript values *)

Module JS.

(** A JavaScript number. The service only counts people, so numbers are the
    integers, unbounded, together with [NaN] (which [undefined + undefined]
    produces). Rounding and overflow of IEEE doubles are outside the model. *)
Inductive number :=
| Int (z : Z)
| NaN.

(** Values that travel between the caller, the service and the store. A
    [VDate] is an instant in milliseconds: a [Date] on the JavaScript side, a
    timestamp in a stored document. Objects are maps from property names. *)
Inductive value :=
| VUndefined
| VNull
| VBool (b : bool)
| VNum (n : number)
| VStr (s : string)
| VDate (t : Z)
| VArr (l : list value)
| VObj (m : gmap string value).

Abbreviation obj := (gmap string value).

Coercion Int : Z >-> number.

(** [o.k] on an object: a missing property reads as [undefined]. *)
Definition prop (o : obj) (k : string) : value := default VUndefined (o !! k).

(** Truthiness, as tested by [a || b]. *)
Definition truthy (v : value) : bool :=
  match v with
  | VUndefined | VNull => false
  | VBool b => b
  | VNum (Int z) => negb (z =? 0)
  | VNum NaN => false
  | VStr s => negb (String.eqb s EmptyString)
  | VDate _ | VArr _ | VObj _ => true
  end.

(** [a || b] *)
Definition or_else (a b : value) : value := if truthy a then a else b.

(** [ToString]. The text of a [Date] depends on the host (time zone and
    engine), so it is taken from the host as [date_text]. *)
Fixpoint to_string (date_text : Z → string) (v : value) : string :=
  match v with
  | VUndefined => "undefined"
  | VNull => "null"
  | VBool true => "true"
  | VBool false => "false"
  | VNum (Int z) => pretty z
  | VNum NaN => "NaN"
  | VStr s => s
  | VDate t => date_text t
  | VArr l =>
      String.concat ","
        (map (λ x, match x with
                   | VUndefined | VNull => EmptyString
                   | _ => to_string date_text x
                   end) l)
  | VObj _ => "[object Object]"
  end.

(** Whether [ToPrimitive] turns the value into a string: strings, and the
    objects (dates, arrays, plain objects). *)
Definition stringish (v : value) : bool :=
  match v with
  | VStr _ | VDate _ | VArr _ | VObj _ => true
  | _ => false
  end.

(** [ToNumber] on the values that are not [stringish]. *)
Definition to_number (v : value) : number :=
  match v with
  | VNull => Int 0
  | VBool true => Int 1
  | VBool false => Int 0
  | VNum n => n
  | _ => NaN
  end.

Definition number_add (a b : number) : number :=
  match a, b with
  | Int x, Int y => Int (x + y)
  | _, _ => NaN
  end.

(** [a + b]: concatenation as soon as one side is a string or an object,
    numeric addition otherwise. *)
Definition add (date_text : Z → string) (a b : value) : value :=
  if stringish a || stringish b
  then VStr (to_string date_text a ++ to_string date_text b)
  else VNum (number_add (to_number a) (to_number b)).

(** [s.padStart(n, c)] for a one-character filler [c]. *)
Definition padStart (n : nat) (c : Ascii.ascii) (s : string) : string :=
  String.string_of_list_ascii (replicate (n - String.length s)%nat c) ++ s.

(** [s.split(sep)] for a one-character separator. *)
Fixpoint split (sep : Ascii.ascii) (s : string) : list string :=
  match s with
  | EmptyString => [EmptyString]
  | String c rest =>
      if Ascii.eqb c sep then EmptyString :: split sep rest
      else match split sep rest with
           | h :: t => String c h :: t
           | [] => [String c EmptyString]
           end
  end.

(** Whether character [c] occurs in [s]. *)
Fixpoint occurs (c : Ascii.ascii) (s : string) : bool :=
  match s with
  | EmptyString => false
  | String c' rest => Ascii.eqb c' c || occurs c rest
  end.

(** An exception: the service only ever reads its [message]. *)
Record error := Error { message : string }.

End JS.
Import JS.

(** * The world outside the service

    The service keeps no state of its own: everything lives in the hosted
    store and in the identity provider. A world holds the documents, the
    accounts and the session, and what the environment will do next: how
    far the clock moves before each reading and whether each coming remote
    call fails. *)

(** A document is addressed by its collection and its path below it; a
    document directly in the collection has a one-segment path, its id. *)
Abbreviation docref := (string * list string)%type.

Record world := World {
  db : gmap docref obj;           (* the documents of the store *)
  accounts : gmap string string;  (* identity provider: email to password *)
  currentUser : option string;    (* [auth.currentUser]: the session's email *)
  now : Z;                        (* the clock, in milliseconds *)
  ticks : list Z;                 (* clock advance before each coming reading *)
  faults : list (option string);  (* outcome of each coming remote call:
                                     [Some msg] fails it with that message *)
  date_text : Z → string          (* how the host prints a [Date] *)
}.

Definition set_db (d : gmap docref obj) (w : world) : world :=
  World d (accounts w) (currentUser w) (now w) (ticks w) (faults w)
    (date_text w).

Definition set_currentUser (u : option string) (w : world) : world :=
  World (db w) (accounts w) u (now w) (ticks w) (faults w) (date_text w).

Definition set_clock (t : Z) (ts : list Z) (w : world) : world :=
  World (db w) (accounts w) (currentUser w) t ts (faults w) (date_text w).

Definition set_faults (fs : list (option string)) (w : world) : world :=
  World (db w) (accounts w) (currentUser w) (now w) (ticks w) fs (date_text w).

(** No coming remote call fails. *)
Definition reliable (w : world) : Prop := Forall (λ f, f = None) (faults w).

(** ** Methods: state and exceptions *)

Inductive outcome (A : Type) :=
| Ok (a : A)
| Throw (e : error).
Arguments Ok {A} a.
Arguments Throw {A} e.

(** An asynchronous method or SDK call, run to completion: it returns or
    throws, and leaves a new world. *)
Definition M (A : Type) : Type := world → outcome A * world.

#[global] Instance M_ret : MRet M := λ A a w, (Ok a, w).

#[global] Instance M_bind : MBind M := λ A B f m w,
  match m w with
  | (Ok a, w') => f a w'
  | (Throw e, w') => (Throw e, w')
  end.

Definition throw {A} (e : error) : M A := λ w, (Throw e, w).

(** [try { body } catch (error) { handler }] *)
Definition try_catch {A} (body : M A) (handler : error → M A) : M A := λ w,
  match body w with
  | (Ok a, w') => (Ok a, w')
  | (Throw e, w') => handler e w'
  end.

(** The world once the environment has answered a remote call. *)
Definition answered (w : world) : world := set_faults (tail (faults w)) w.

(** One round trip to the store or to the identity provider: it fails when
    the environment says so, before anything is changed. *)
Definition remote : M unit := λ w,
  match head (faults w) with
  | Some (Some msg) => (Throw (Error msg), answered w)
  | _ => (Ok (), answered w)
  end.

(** What the clock shows at its next reading, and the world after it. *)
Definition reading (w : world) : Z := now w + default 0 (head (ticks w)).
Definition ticked (w : world) : world := set_clock (reading w) (tail (ticks w)) w.

(** [new Date()] *)
Definition new_Date : M value := λ w, (Ok (VDate (reading w)), ticked w).

(** [a + b], printing dates as the host does. *)
Definition host_add (a b : value) : M value := λ w, (Ok (JS.add (date_text w) a b), w).

(** [String(v)], as a template literal does. *)
Definition host_string (v : value) : M string := λ w, (Ok (to_string (date_text w) v), w).

Definition read {A} (f : world → A) : M A := λ w, (Ok (f w), w).
Definition write (f : world → world) : M unit := λ w, (Ok (), f w).

(** * The document store, as the service uses it *)

Module Firestore.

(** Messages of the errors the SDK and the store raise by themselves. Their
    wording differs between SDK versions and the service only passes them
    on; these texts stand for them. *)
Definition invalid_document_path : string := "Invalid document reference".
Definition invalid_field_path : string := "Invalid field path".
Definition unsupported_field_value : string := "Unsupported field value".
Definition increment_needs_number : string :=
  "FieldValue.increment() requires a number".
Definition no_document_to_update : string := "No document to update".

(** ** Document references *)

Fixpoint double_slash (s : string) : bool :=
  match s with
  | EmptyString => false
  | String c rest =>
      (Ascii.eqb c "/"%char &&
       match rest with
       | String c' _ => Ascii.eqb c' "/"%char
       | EmptyString => false
       end)
      || double_slash rest
  end.

(** [collection(coll).doc(documentPath)] accepts a non-empty string without
    a double slash that names a document: an odd number of segments below
    the collection. Anything else is rejected here, as by the check of an
    SDK that insists on such a string; which other arguments are refused
    differs between SDK releases (a later one takes a missing argument as
    a request for a new id), so the properties of the service are stated
    for the arguments accepted here. *)
Definition doc_ref (coll : string) (documentPath : value) : option docref :=
  match documentPath with
  | VStr s =>
      if String.eqb s EmptyString || double_slash s then None
      else
        let segments := filter (λ x, x ≠ EmptyString) (split "/"%char s) in
        if Nat.odd (length segments) then Some (coll, segments) else None
  | _ => None
  end.

Definition doc (coll : string) (documentPath : value) : M docref :=
  match doc_ref coll documentPath with
  | Some ref => mret ref
  | None => throw (Error invalid_document_path)
  end.

(** ** Data accepted in a write *)

Definition is_array (v : value) : bool :=
  match v with VArr _ => true | _ => false end.

(** What the SDK checks before it sends data: no [undefined], no array
    directly inside an array, no empty field name. Whatever else the store
    may refuse (sizes, reserved names) is a failure of the remote call. *)
Fixpoint storable (v : value) : bool :=
  match v with
  | VUndefined => false
  | VArr l => forallb (λ x, storable x && negb (is_array x)) l
  | VObj m =>
      map_fold (λ k x acc, negb (String.eqb k EmptyString) && storable x && acc) true m
  | _ => true
  end.

(** ** Order and equality of stored values *)

Definition by_key {A} (x y : string * A) : Prop := Is_true (String.leb x.1 y.1).

#[global] Instance by_key_dec {A} (x y : string * A) : Decision (by_key x y) := _.

(** The entries of a map, by ascending key. *)
Definition entries {A} (m : gmap string A) : list (string * A) :=
  merge_sort by_key (map_to_list m).

Definition rank (v : value) : Z :=
  match v with
  | VNull => 0
  | VBool _ => 1
  | VNum _ => 2
  | VDate _ => 3
  | VStr _ => 4
  | VArr _ => 5
  | VObj _ => 6
  | VUndefined => 7
  end.

Fixpoint lex_entries (l1 : list (string * (value → comparison)))
    (l2 : list (string * value)) : comparison :=
  match l1, l2 with
  | [], [] => Eq
  | [], _ => Lt
  | _, [] => Gt
  | (k1, cmp) :: l1', (k2, v2) :: l2' =>
      match String.compare k1 k2 with
      | Eq => match cmp v2 with Eq => lex_entries l1' l2' | c => c end
      | c => c
      end
  end.

(** The store's order across types: null, booleans, numbers (NaN first),
    timestamps, strings, arrays (element by element), maps (entry by entry
    in key order). *)
Fixpoint compare (a b : value) {struct a} : comparison :=
  match a, b with
  | VBool x, VBool y => Bool.compare x y
  | VNum NaN, VNum NaN => Eq
  | VNum NaN, VNum (Int _) => Lt
  | VNum (Int _), VNum NaN => Gt
  | VNum (Int x), VNum (Int y) => Z.compare x y
  | VDate x, VDate y => Z.compare x y
  | VStr x, VStr y => String.compare x y
  | VArr l1, VArr l2 =>
      (fix go (l1 l2 : list value) : comparison :=
         match l1, l2 with
         | [], [] => Eq
         | [], _ => Lt
         | _, [] => Gt
         | x :: l1', y :: l2' =>
             match compare x y with Eq => go l1' l2' | c => c end
         end) l1 l2
  | VObj m1, VObj m2 =>
      lex_entries (entries ((λ v, compare v) <$> m1)) (entries m2)
  | _, _ => Z.compare (rank a) (rank b)
  end.

(** The [==] of a query filter. *)
Definition equal (a b : value) : bool :=
  match compare a b with Eq => true | _ => false end.

(** ** Field paths and updates *)

(** The characters that a dotted field path may not contain. *)
Definition reserved (s : string) : bool :=
  occurs "~"%char s || occurs "*"%char s || occurs "/"%char s
  || occurs "["%char s || occurs "]"%char s.

(** A dotted field path, as [update] reads the keys of its argument. *)
Definition field_path (s : string) : option (list string) :=
  if reserved s then None
  else
    let segments := split "."%char s in
    if existsb (λ x, String.eqb x EmptyString) segments then None
    else Some segments.

(** Replaces the value at [path] by [f] of the value found there
    ([undefined] when there is none); what is not a map on the way becomes
    one. *)
Fixpoint set_at (path : list string) (f : value → value) (v : value) : value :=
  match path with
  | [] => f v
  | k :: rest =>
      let m := match v with VObj m => m | _ => ∅ end in
      VObj (<[k := set_at rest f (prop m k)]> m)
  end.

Fixpoint get_at (path : list string) (v : value) : value :=
  match path with
  | [] => v
  | k :: rest =>
      match v with
      | VObj m => get_at rest (prop m k)
      | _ => VUndefined
      end
  end.

Definition set_field (path : list string) (f : value → value) (data : obj)
    : obj :=
  match set_at path f (VObj data) with
  | VObj m => m
  | _ => data
  end.

(** What an [update] does to one field: a plain value, or the
    [FieldValue.increment(n)] sentinel. *)
Inductive field_update :=
| Put (v : value)
| Increment (n : number).

(** [firebase.firestore.FieldValue.increment(n)] *)
Definition increment (n : value) : M field_update :=
  match n with
  | VNum k => mret (Increment k)
  | _ => throw (Error increment_needs_number)
  end.

(** The store adds the operand to a number and replaces anything else,
    a missing field included, by the operand. *)
Definition incremented (current : value) (n : number) : value :=
  match current with
  | VNum m => VNum (number_add m n)
  | _ => VNum n
  end.

Definition parse_update (kv : string * field_update)
    : option (list string * field_update) :=
  match field_path kv.1, kv.2 with
  | Some path, Put v => if storable v then Some (path, Put v) else None
  | Some path, Increment n => Some (path, Increment n)
  | None, _ => None
  end.

Definition apply_update (data : obj) (u : list string * field_update) : obj :=
  match u with
  | (path, Put v) => set_field path (λ _, v) data
  | (path, Increment n) =>
      set_field path (λ current, incremented current n) data
  end.

(** ** Calls on a document reference *)

(** [ref.get()]: [None] is a snapshot with [exists] false. *)
Definition get (ref : docref) : M (option obj) :=
  _ ← remote; read (λ w, db w !! ref).

(** [ref.set(data)]: replaces the whole document. *)
Definition set (ref : docref) (data : obj) : M () :=
  if storable (VObj data)
  then _ ← remote; write (λ w, set_db (<[ref := data]> (db w)) w)
  else throw (Error unsupported_field_value).

(** [ref.update(updates)]: the keys are field paths; the document must
    exist; every field not named stays as it is. *)
Definition update (ref : docref) (updates : gmap string field_update) : M () :=
  match mapM parse_update (map_to_list updates) with
  | None => throw (Error invalid_field_path)
  | Some us =>
      _ ← remote;
      current ← read (λ w, db w !! ref);
      match current with
      | None => throw (Error no_document_to_update)
      | Some data =>
          write (λ w, set_db (<[ref := foldl apply_update data us]> (db w)) w)
      end
  end.

(** [ref.delete()]: succeeds whether or not the document exists. *)
Definition delete (ref : docref) : M () :=
  _ ← remote; write (λ w, set_db (base.delete ref (db w)) w).

(** ** Calls on a collection *)

(** The documents directly in a collection, with their ids. *)
Definition documents (coll : string) (d : gmap docref obj)
    : list (string * obj) :=
  omap (λ e : docref * obj,
          match e with
          | ((c, [id]), data) =>
              if String.eqb c coll then Some (id, data) else None
          | _ => None
          end) (map_to_list d).

Definition ids (coll : string) (d : gmap docref obj) : gset string :=
  list_to_set (documents coll d).*1.

(** [collection(coll).add(data)]: the document gets an identifier that is
    not in use in the collection. *)
Definition add (coll : string) (data : obj) : M string :=
  if storable (VObj data)
  then
    _ ← remote;
    id ← read (λ w, fresh ({[ EmptyString ]} ∪ ids coll (db w)));
    _ ← write (λ w, set_db (<[(coll, [id]) := data]> (db w)) w);
    mret id
  else throw (Error unsupported_field_value).

(** [collection(coll).where(field, '==', v).get()]: the documents whose
    [field] equals [v], by ascending id. *)
Definition where_eq (coll field : string) (v : value)
    : M (list (string * obj)) :=
  if storable v
  then
    _ ← remote;
    read (λ w,
            merge_sort by_key
              (filter (λ e : string * obj,
                         Is_true (from_option (λ x, equal x v) false
                                    (e.2 !! field)))
                      (documents coll (db w))))
  else throw (Error unsupported_field_value).

Definition desc_by (field : string) (x y : string * obj) : Prop :=
  Is_true (match compare (prop y.2 field) (prop x.2 field) with
           | Lt => true
           | Eq => String.leb y.1 x.1
           | Gt => false
           end).

#[global] Instance desc_by_dec field x y : Decision (desc_by field x y) := _.

(** [collection(coll).orderBy(field, 'desc').get()]: the documents that have
    [field], by descending value, then by descending id. *)
Definition orderBy_desc (coll field : string) : M (list (string * obj)) :=
  _ ← remote;
  read (λ w, merge_sort (desc_by field)
               (filter (λ e : string * obj, is_Some (e.2 !! field))
                       (documents coll (db w)))).

(** [collection(coll).get()] *)
Definition get_all (coll : string) : M (list (string * obj)) :=
  _ ← remote; read (λ w, merge_sort by_key (documents coll (db w))).

End Firestore.

(** * The identity provider *)

Module Auth.

Definition wrong_credentials : string := "The email or password is invalid".

(** [auth.signInWithEmailAndPassword(email, password)]: on success the
    session belongs to that user and the credential carries the user. Emails
    are compared as they are written. *)
Definition signInWithEmailAndPassword (email password : string) : M obj :=
  _ ← remote;
  known ← read (λ w, accounts w !! email);
  if decide (known = Some password)
  then
    _ ← write (set_currentUser (Some email));
    mret {[ "user" := VObj {[ "email" := VStr email ]} ]}
  else throw (Error wrong_credentials).

(** [auth.signOut()] *)
Definition signOut : M () :=
  _ ← remote; write (set_currentUser None).

End Auth.

(** * FirebaseService

    The methods of the class; the availability methods come first because
    [createBooking] calls one of them. Each [await]ed call is one call of
    the monad; [console.error] has no effect on the result and is left
    out. *)

(** [{ success: false, error: error.message }] *)
Definition failure (error : error) : value :=
  VObj {[ "success" := VBool false; "error" := VStr (message error) ]}.

(** [{ success: true }] *)
Definition success : value := VObj {[ "success" := VBool true ]}.

(** [{ id: doc.id, ...doc.data() }]: a field "id" of the data itself
    overrides the document id. *)
Definition with_id (doc : string * obj) : value :=
  VObj (doc.2 ∪ {[ "id" := VStr doc.1 ]}).

Definition generateDefaultSlots : obj :=
  foldl (λ slots hour,
           let time := padStart 2 "0" (pretty hour) ++ ":00" in
           <[time := VObj {[ "booked" := VNum 0; "total" := VNum 100 ]}]> slots)
        ∅ (seqZ 9 10).

Definition getAvailability (date : value) : M value :=
  try_catch
    (ref ← Firestore.doc "availability" date;
     doc ← Firestore.get ref;
     match doc with
     | Some data =>
         mret (VObj {[ "success" := VBool true;
                       "slots" := or_else (prop data "slots") (VObj ∅) ]})
     | None =>
         let slots := generateDefaultSlots in
         ref' ← Firestore.doc "availability" date;
         _ ← Firestore.set ref' {[ "date" := date; "slots" := VObj slots ]};
         mret (VObj {[ "success" := VBool true; "slots" := VObj slots ]})
     end)
    (λ error, mret (failure error)).

Definition updateAvailability (date time change : value) : M value :=
  try_catch
    (availabilityRef ← Firestore.doc "availability" date;
     doc ← Firestore.get availabilityRef;
     _ ← match doc with
         | None =>
             let slots := generateDefaultSlots in
             Firestore.set availabilityRef
               {[ "date" := date; "slots" := VObj slots ]}
         | Some _ => mret ()
         end;
     key ← host_string time;
     by_change ← Firestore.increment change;
     _ ← Firestore.update availabilityRef
           {[ "slots." ++ key ++ ".booked" := by_change ]};
     mret success)
    (λ error, mret (failure error)).

Definition createBooking (bookingData : obj) : M value :=
  try_catch
    (createdAt ← new_Date;
     updatedAt ← new_Date;
     bookingRef ← Firestore.add "bookings"
       (<["updatedAt" := updatedAt]>
          (<["createdAt" := createdAt]>
             (<["status" := VStr "pending"]> bookingData)));
     change ← host_add (prop bookingData "kids") (prop bookingData "adults");
     _ ← updateAvailability (prop bookingData "date") (prop bookingData "time")
           change;
     mret (VObj {[ "success" := VBool true; "id" := VStr bookingRef ]}))
    (λ error, mret (failure error)).

Definition getAllBookings : M value :=
  try_catch
    (snapshot ← Firestore.orderBy_desc "bookings" "createdAt";
     let bookings := with_id <$> snapshot in
     mret (VObj {[ "success" := VBool true; "bookings" := VArr bookings ]}))
    (λ error, mret (failure error)).

Definition getBookingsByDate (date : value) : M value :=
  try_catch
    (snapshot ← Firestore.where_eq "bookings" "date" date;
     let bookings := with_id <$> snapshot in
     mret (VObj {[ "success" := VBool true; "bookings" := VArr bookings ]}))
    (λ error, mret (failure error)).

Definition updateBooking (bookingId : value) (updates : obj) : M value :=
  try_catch
    (ref ← Firestore.doc "bookings" bookingId;
     updatedAt ← new_Date;
     _ ← Firestore.update ref
           (Firestore.Put <$> <["updatedAt" := updatedAt]> updates);
     mret success)
    (λ error, mret (failure error)).

Definition deleteBooking (bookingId : value) : M value :=
  try_catch
    (ref ← Firestore.doc "bookings" bookingId;
     _ ← Firestore.delete ref;
     mret success)
    (λ error, mret (failure error)).

Definition getActivities : M value :=
  try_catch
    (snapshot ← Firestore.get_all "activities";
     let activities :=
       foldl (λ acc (doc : string * obj), <[doc.1 := VObj doc.2]> acc) ∅ snapshot in
     mret (VObj {[ "success" := VBool true; "activities" := VObj activities ]}))
    (λ error, mret (failure error)).

Definition adminLogin (email password : string) : M value :=
  try_catch
    (userCredential ← Auth.signInWithEmailAndPassword email password;
     adminDoc ← Firestore.where_eq "admins" "email" (VStr email);
     match adminDoc with
     | _ :: _ =>
         mret (VObj {[ "success" := VBool true;
                       "user" := prop userCredential "user" ]})
     | [] =>
         _ ← Auth.signOut;
         mret (VObj {[ "success" := VBool false;
                       "error" := VStr "Not an admin user" ]})
     end)
    (λ error, mret (failure error)).

Definition adminLogout : M value :=
  try_catch
    (_ ← Auth.signOut; mret success)
    (λ error, mret (failure error)).

(** No [try] here: a failing lookup rejects the promise. *)
Definition isAdmin : M value :=
  user ← read currentUser;
  match user with
  | None => mret (VBool false)
  | Some email =>
      adminDoc ← Firestore.where_eq "admins" "email" (VStr email);
      mret (VBool (negb (bool_decide (adminDoc = []))))
  end.

(** * Several calls of [updateAvailability] at once

    JavaScript runs one call until its next [await] and may then run
    another. A call of [updateAvailability] waits three times: for the
    snapshot, for the write of the default slots when the snapshot does not
    exist, and for the increment. Between two waits nothing but the call's
    own variables changes, so a call is described by the request it is
    waiting for, and an interleaving by the order in which the store answers
    the requests. *)

Module Concurrent.

Inductive stage :=
| AwaitGet (availabilityRef : docref)
| AwaitSet (availabilityRef : docref)
| AwaitUpdate (availabilityRef : docref)
| Returned (result : value).

Record call := Call {
  date : value;
  time : value;
  change : value;
  at_stage : stage
}.

(** From the answer to the pending request up to the next request, inside
    the [try]. *)
Definition continue (c : call) : M stage :=
  match at_stage c with
  | AwaitGet availabilityRef =>
      doc ← Firestore.get availabilityRef;
      match doc with
      | None => mret (AwaitSet availabilityRef)
      | Some _ => mret (AwaitUpdate availabilityRef)
      end
  | AwaitSet availabilityRef =>
      let slots := generateDefaultSlots in
      _ ← Firestore.set availabilityRef
            {[ "date" := date c; "slots" := VObj slots ]};
      mret (AwaitUpdate availabilityRef)
  | AwaitUpdate availabilityRef =>
      key ← host_string (time c);
      by_change ← Firestore.increment (change c);
      _ ← Firestore.update availabilityRef
            {[ "slots." ++ key ++ ".booked" := by_change ]};
      mret (Returned success)
  | Returned result => mret (Returned result)
  end.

(** One step of a call; the [catch] turns an exception into the returned
    failure. *)
Definition resume (c : call) (w : world) : call * world :=
  match continue c w with
  | (Ok s, w') => (Call (date c) (time c) (change c) s, w')
  | (Throw e, w') => (Call (date c) (time c) (change c) (Returned (failure e)), w')
  end.

(** The call as it stands right after [updateAvailability(date, time,
    change)] was invoked: the reference is built and the snapshot
    requested. *)
Definition invoke (date time change : value) : call :=
  Call date time change
    (match Firestore.doc_ref "availability" date with
     | Some availabilityRef => AwaitGet availabilityRef
     | None => Returned (failure (Error Firestore.invalid_document_path))
     end).

Definition returned (c : call) : bool :=
  match at_stage c with Returned _ => true | _ => false end.

(** Runs a call alone to its end: at most three steps. *)
Definition alone (c : call) (w : world) : call * world :=
  let '(c1, w1) := resume c w in
  let '(c2, w2) := resume c1 w1 in
  resume c2 w2.

(** [schedule] names, step after step, the call that goes on. *)
Fixpoint run (schedule : list nat) (calls : list call) (w : world)
    : list call * world :=
  match schedule with
  | [] => (calls, w)
  | i :: rest =>
      match calls !! i with
      | Some c =>
          let '(c', w') := resume c w in
          run rest (<[i := c']> calls) w'
      | None => run rest calls w
      end
  end.

End Concurrent.

(** * What the properties speak about *)

(** A result envelope: [{ success: true, ...payload }] or
    [{ success: false, error: message }]. *)
Definition envelope (r : value) : Prop :=
  (∃ payload : obj, r = VObj payload ∧ payload !! "success" = Some (VBool true))
  ∨ (∃ msg : string,
       r = VObj {[ "success" := VBool false; "error" := VStr msg ]}).

(** [slots[time].booked] of an availability document. *)
Definition booked (time : string) (data : obj) : value :=
  Firestore.get_at ["slots"; time; "booked"] (VObj data).

(** The email has a record in the [admins] collection. *)
Definition admin_record (w : world) (email : string) : Prop :=
  ∃ id data,
    db w !! ("admins", [id]) = Some data ∧ data !! "email" = Some (VStr email).

(** A slot key that is one segment of a field path: not empty, without a
    dot and without any of the characters a field path may not contain. *)
Definition slot_key (time : string) : bool :=
  negb (String.eqb time EmptyString) && negb (occurs "."%char time)
  && negb (Firestore.reserved time).

(** The document that [createBooking] inserts for [bookingData] when the
    clock shows [createdAt] and then [updatedAt]. *)
Definition booking_record (bookingData : obj) (createdAt updatedAt : Z) : obj :=
  <["updatedAt" := VDate updatedAt]>
    (<["createdAt" := VDate createdAt]>
       (<["status" := VStr "pending"]> bookingData)).

(** The default document of a date. *)
Definition default_day (date : value) : obj :=
  {[ "date" := date; "slots" := VObj generateDefaultSlots ]}.

(** The calls that have returned, counted. *)
Definition finished (calls : list Concurrent.call) : Z :=
  foldr (λ c acc, (if Concurrent.returned c then 1 else 0) + acc) 0 calls.

(** A call [updateAvailability(d, t, 1)] that has met no failure and does not
    wait for the write of the default slots. *)
Definition on_track (d : value) (t : string) (ref : docref)
    (c : Concurrent.call) : Prop :=
  Concurrent.date c = d ∧ Concurrent.time c = VStr t
  ∧ Concurrent.change c = VNum 1
  ∧ (Concurrent.at_stage c = Concurrent.AwaitGet ref
     ∨ Concurrent.at_stage c = Concurrent.AwaitUpdate ref
     ∨ Concurrent.at_stage c = Concurrent.Returned success).

(** ** Sample worlds *)

(** An empty store that answers every request. *)
Definition day_one : world := World ∅ ∅ None 0 [] [] (λ _, EmptyString).

(** A store that accepts one request and fails the next. *)
Definition failing_availability : world :=
  World ∅ ∅ None 0 [] [None; Some "unavailable"] (λ _, EmptyString).

Definition family_booking : obj :=
  {[ "date" := VStr "2024-06-01"; "time" := VStr "10:00";
     "kids" := VNum 2; "adults" := VNum 1; "status" := VStr "confirmed" ]}.

(** The store after [family_booking] was inserted as document b1. *)
Definition one_booking : world :=
  World {[ ("bookings", ["b1"]) := booking_record family_booking 0 0;
           ("availability", ["2024-06-01"]) :=
             <["slots" := VObj (<["10:00" := VObj {[ "booked" := VNum 3;
                                                     "total" := VNum 100 ]}]>
                                  generateDefaultSlots)]>
               (default_day (VStr "2024-06-01")) ]}
        ∅ None 0 [] [] (λ _, EmptyString).

(** One admin, signed in, and one account that is not an admin. *)
Definition desk : world :=
  World {[ ("admins", ["a1"]) := {[ "email" := VStr "owner@happyville.test" ]} ]}
        {[ "owner@happyville.test" := "secret"; "guest@happyville.test" := "pass" ]}
        (Some "owner@happyville.test") 0 [] [] (λ _, EmptyString).

(** Two calls of [updateAvailability] for the first booking of a date. *)
Definition two_calls : list Concurrent.call :=
  replicate 2 (Concurrent.invoke (VStr "2024-06-01") (VStr "09:00") (VNum 1)).

(** The desk when the store answers the sign-in and fails the next
    request. *)
Definition shaky_desk : world :=
  World (db desk) (accounts desk) None 0 [] [None; Some "unavailable"]
    (λ _, EmptyString).

(** The desk, the owner signed in, when the store cannot be reached. *)
Definition offline_desk : world :=
  World (db desk) (accounts desk) (Some "owner@happyville.test") 0 []
    [Some "offline"] (λ _, EmptyString).

(** A change of status and of the number of kids. *)
Definition confirmed_for_three : obj :=
  {[ "status" := VStr "confirmed"; "kids" := VNum 3 ]}.

(** A store with two activities. *)
Definition park : world :=
  World {[ ("activities", ["slide"]) :=
             {[ "name" := VStr "Slide"; "price" := VNum 5 ]};
           ("activities", ["karts"]) :=
             {[ "name" := VStr "Karts"; "price" := VNum 12 ]} ]}
        ∅ None 0 [] [] (λ _, EmptyString).

(** ** What a method leaves alone *)

(** [m] takes every world to one related to it by [R], whether it returns
    or throws. *)
Definition keeps {A} (R : relation world) (m : M A) : Prop :=
  ∀ w, R w (m w).2.

Definition same_documents : relation world := λ w w', db w' = db w.

Definition same_session : relation world :=
  λ w w', currentUser w' = currentUser w ∧ accounts w' = accounts w.

(** Only documents of the collections [colls] may differ. *)
Definition writes_only (colls : list string) : relation world :=
  λ w w', ∀ ref : docref, ref.1 ∉ colls → db w' !! ref = db w !! ref.

Definition stays_reliable : relation world :=
  λ w w', reliable w → reliable w'.

(** A relation between worlds that the environment respects: answering a
    request and moving the clock stay inside it. *)
Class Ambient (R : relation world) : Prop := {
  ambient_preorder :: PreOrder R;
  ambient_answered : ∀ w, R w (answered w);
  ambient_ticked : ∀ w, R w (ticked w)
}.

(** Two field paths that part at some segment. *)
Fixpoint diverge (p q : list string) : Prop :=
  match p, q with
  | k :: p', k' :: q' => k ≠ k' ∨ diverge p' q'
  | _, _ => False
  end.

(** * Lemmas *)

(** ** Strings, document ids and slot keys *)

Lemma occurs_app c s1 s2 : occurs c (s1 ++ s2) = occurs c s1 || occurs c s2.
Proof.
  induction s1 as [|c' s1 IH]; simpl; [done|].
  rewrite IH. by rewrite orb_assoc.
Qed.

Lemma split_without sep s : occurs sep s = false → split sep s = [s].
Proof.
  induction s as [|c s IH]; simpl; [done|].
  intros [Hc Hs]%orb_false_elim. by rewrite Hc, (IH Hs).
Qed.

Lemma split_app sep s rest :
  occurs sep s = false →
  split sep (s ++ String sep rest) = s :: split sep rest.
Proof.
  induction s as [|c s IH]; simpl.
  - intros _. by rewrite Ascii.eqb_refl.
  - intros [Hc Hs]%orb_false_elim. by rewrite Hc, (IH Hs).
Qed.

Lemma reserved_app s1 s2 :
  Firestore.reserved (s1 ++ s2) = Firestore.reserved s1 || Firestore.reserved s2.
Proof.
  unfold Firestore.reserved. rewrite !occurs_app.
  repeat match goal with
         | |- context [occurs ?c ?s] => generalize (occurs c s); intro
         end.
  repeat match goal with b : bool |- _ => destruct b end; reflexivity.
Qed.

(** The key that [updateAvailability] builds for a slot key is the path
    slots, then the slot, then booked. *)
Lemma field_path_slot time :
  slot_key time = true →
  Firestore.field_path ("slots." ++ time ++ ".booked")
  = Some ["slots"; time; "booked"].
Proof.
  unfold slot_key.
  intros [[Hne Hdot%negb_true_iff]%andb_true_iff Hres%negb_true_iff]%andb_true_iff.
  unfold Firestore.field_path.
  change ("slots." ++ time ++ ".booked")
    with ("slots" ++ String "."%char (time ++ String "."%char "booked")).
  rewrite reserved_app.
  change (String "."%char (time ++ String "."%char "booked"))
    with ("." ++ (time ++ ".booked")).
  rewrite !reserved_app, Hres. simpl orb. cbv iota.
  change ("." ++ (time ++ ".booked"))
    with (String "."%char (time ++ String "."%char "booked")).
  rewrite split_app by reflexivity. rewrite split_app by done.
  simpl. by destruct (String.eqb time EmptyString).
Qed.

Lemma double_slash_without s :
  occurs "/"%char s = false → Firestore.double_slash s = false.
Proof.
  induction s as [|c s IH]; simpl; [done|].
  intros [Hc Hs]%orb_false_elim. by rewrite Hc, (IH Hs).
Qed.

(** A non-empty string without a slash, such as a calendar date, is the id
    of a document of the collection. *)
Lemma doc_ref_plain coll s :
  s ≠ EmptyString → occurs "/"%char s = false →
  Firestore.doc_ref coll (VStr s) = Some (coll, [s]).
Proof.
  intros Hne Hs. unfold Firestore.doc_ref.
  rewrite (double_slash_without _ Hs), (split_without _ _ Hs).
  destruct (String.eqb_spec s EmptyString) as [->|_]; [done|]. simpl.
  by rewrite filter_cons_True, filter_nil by done.
Qed.

Example doc_ref_date :
  Firestore.doc_ref "availability" (VStr "2024-06-01")
  = Some ("availability", ["2024-06-01"]).
Proof. by apply doc_ref_plain. Qed.

Lemma doc_ref_collection coll v ref :
  Firestore.doc_ref coll v = Some ref → ref.1 = coll.
Proof.
  unfold Firestore.doc_ref. destruct v; try done.
  repeat case_match; try done. by intros [= <-].
Qed.

Lemma string_compare_refl s : String.compare s s = Eq.
Proof.
  pose proof (String.compare_antisym s s) as H.
  by destruct (String.compare s s).
Qed.

(** ** The monad *)

Lemma bind_Ok {A B} (m : M A) (f : A → M B) w a w' :
  m w = (Ok a, w') → (m ≫= f) w = f a w'.
Proof. unfold mbind, M_bind. by intros ->. Qed.

Lemma bind_Throw {A B} (m : M A) (f : A → M B) w e w' :
  m w = (Throw e, w') → (m ≫= f) w = (Throw e, w').
Proof. unfold mbind, M_bind. by intros ->. Qed.

Lemma bind_inv {A B} (m : M A) (f : A → M B) w b w' :
  (m ≫= f) w = (Ok b, w') → ∃ a w1, m w = (Ok a, w1) ∧ f a w1 = (Ok b, w').
Proof.
  unfold mbind, M_bind. destruct (m w) as [[a|e] w1]; [eauto | discriminate].
Qed.

Ltac bind_inv H :=
  repeat (let a := fresh "a" in
          let w := fresh "w" in
          let H' := fresh H in
          apply bind_inv in H as (a & w & H' & H)).

Lemma reliable_answered w : reliable w → reliable (answered w).
Proof.
  unfold reliable, answered. simpl. destruct (faults w); simpl; [done|].
  by inversion 1.
Qed.

Lemma remote_reliable w : reliable w → remote w = (Ok (), answered w).
Proof.
  unfold reliable, remote. destruct (faults w) as [|[msg|] fs]; simpl; try done.
  inversion 1; discriminate.
Qed.

Lemma remote_cases w :
  remote w = (Ok (), answered w)
  ∨ ∃ msg, remote w = (Throw (Error msg), answered w).
Proof. unfold remote. destruct (head (faults w)) as [[msg|]|]; eauto. Qed.

(** ** Envelopes *)

Lemma envelope_failure e : envelope (failure e).
Proof. right. by eexists. Qed.

Lemma envelope_success : envelope success.
Proof. left. by eexists. Qed.

(** A method whose body sits in the [try] returns an envelope as soon as
    the body can only return one. *)
Lemma try_catch_envelope (body : M value) w :
  (∀ r w', body w = (Ok r, w') → envelope r) →
  ∃ r w',
    try_catch body (λ error, mret (failure error)) w = (Ok r, w') ∧ envelope r.
Proof.
  intros Hbody. unfold try_catch. destruct (body w) as [[r|e] w'] eqn:Hb.
  - eauto.
  - eexists _, _. split; [reflexivity | apply envelope_failure].
Qed.

(** ** Calls of the store that are answered *)

Lemma doc_Some coll v ref w :
  Firestore.doc_ref coll v = Some ref → Firestore.doc coll v w = (Ok ref, w).
Proof. unfold Firestore.doc. by intros ->. Qed.

Lemma get_reliable ref w :
  reliable w → Firestore.get ref w = (Ok (db w !! ref), answered w).
Proof.
  intros Hw. unfold Firestore.get.
  by rewrite (bind_Ok _ _ _ _ _ (remote_reliable w Hw)).
Qed.

Lemma set_reliable ref data w :
  reliable w → Firestore.storable (VObj data) = true →
  Firestore.set ref data w
  = (Ok (), set_db (<[ref := data]> (db w)) (answered w)).
Proof.
  intros Hw Hs. unfold Firestore.set. rewrite Hs.
  by rewrite (bind_Ok _ _ _ _ _ (remote_reliable w Hw)).
Qed.

Lemma delete_reliable ref w :
  reliable w →
  Firestore.delete ref w = (Ok (), set_db (delete ref (db w)) (answered w)).
Proof.
  intros Hw. unfold Firestore.delete.
  by rewrite (bind_Ok _ _ _ _ _ (remote_reliable w Hw)).
Qed.

Lemma update_reliable ref updates us data w :
  reliable w →
  mapM Firestore.parse_update (map_to_list updates) = Some us →
  db w !! ref = Some data →
  Firestore.update ref updates w
  = (Ok (), set_db (<[ref := foldl Firestore.apply_update data us]> (db w))
              (answered w)).
Proof.
  intros Hw Hus Hdoc. unfold Firestore.update. rewrite Hus.
  rewrite (bind_Ok _ _ _ _ _ (remote_reliable w Hw)).
  rewrite (bind_Ok _ _ (answered w) (Some data) (answered w))
    by (by rewrite <-Hdoc).
  reflexivity.
Qed.

Lemma update_increment ref key path n data w :
  reliable w →
  Firestore.field_path key = Some path →
  db w !! ref = Some data →
  Firestore.update ref {[ key := Firestore.Increment n ]} w
  = (Ok (), set_db (<[ref := Firestore.set_field path
                               (λ current, Firestore.incremented current n)
                               data]> (db w)) (answered w)).
Proof.
  intros Hw Hpath Hdoc.
  apply (update_reliable ref _ [(path, Firestore.Increment n)]); [done| |done].
  rewrite map_to_list_singleton. simpl.
  unfold Firestore.parse_update. simpl. by rewrite Hpath.
Qed.

Lemma storable_default_day coll date ref :
  Firestore.doc_ref coll date = Some ref →
  Firestore.storable (VObj (default_day date)) = true.
Proof.
  destruct date; try discriminate. intros _. vm_compute. reflexivity.
Qed.

(** ** Field paths *)

Lemma get_at_undefined path : Firestore.get_at path VUndefined = VUndefined.
Proof. by destruct path. Qed.

Lemma get_at_set_at path f v :
  Firestore.get_at path (Firestore.set_at path f v)
  = f (Firestore.get_at path v).
Proof.
  revert v. induction path as [|k path IH]; intros v; simpl; [done|].
  unfold prop at 1. rewrite lookup_insert_eq. simpl. rewrite IH.
  destruct v; try done; unfold prop; rewrite lookup_empty; simpl;
    by rewrite get_at_undefined.
Qed.

Lemma set_field_cons k path f data :
  Firestore.set_field (k :: path) f data
  = <[k := Firestore.set_at path f (prop data k)]> data.
Proof. reflexivity. Qed.

Lemma get_at_set_field k path f data :
  Firestore.get_at (k :: path) (VObj (Firestore.set_field (k :: path) f data))
  = f (Firestore.get_at (k :: path) (VObj data)).
Proof.
  rewrite set_field_cons.
  change (VObj (<[k := Firestore.set_at path f (prop data k)]> data))
    with (Firestore.set_at (k :: path) f (VObj data)).
  apply get_at_set_at.
Qed.

(** ** Collections and queries *)

Lemma elem_of_documents coll d id data :
  (id, data) ∈ Firestore.documents coll d ↔ d !! (coll, [id]) = Some data.
Proof.
  unfold Firestore.documents. rewrite list_elem_of_omap. split.
  - intros ([[c p] data'] & Hin%elem_of_map_to_list & Hf).
    destruct p as [|i [|? ?]]; try discriminate.
    by destruct (String.eqb_spec c coll); simplify_eq.
  - intros Hd. exists ((coll, [id]), data).
    split; [by apply elem_of_map_to_list|]. by rewrite String.eqb_refl.
Qed.

Lemma elem_of_ids coll d id data :
  d !! (coll, [id]) = Some data → id ∈ Firestore.ids coll d.
Proof.
  intros Hd%elem_of_documents. unfold Firestore.ids.
  rewrite elem_of_list_to_set, list_elem_of_fmap. by exists (id, data).
Qed.

Lemma fresh_id_unused coll d :
  d !! (coll, [fresh ({[ EmptyString ]} ∪ Firestore.ids coll d)]) = None.
Proof.
  generalize (is_fresh ({[ EmptyString ]} ∪ Firestore.ids coll d)).
  generalize (fresh ({[ EmptyString ]} ∪ Firestore.ids coll d)). intros id Hid.
  destruct (d !! (coll, [id])) as [data|] eqn:Hd; [|done].
  exfalso. apply Hid, elem_of_union_r. by eapply elem_of_ids.
Qed.

(** The three outcomes of [add]: refused by the SDK, failed by the store,
    or stored under an identifier that was not in use. *)
Lemma add_cases coll data w :
  (∃ e, Firestore.add coll data w = (Throw e, w))
  ∨ (∃ e, Firestore.add coll data w = (Throw e, answered w))
  ∨ (∃ id,
       Firestore.add coll data w
       = (Ok id, set_db (<[(coll, [id]) := data]> (db w)) (answered w))
       ∧ db w !! (coll, [id]) = None).
Proof.
  unfold Firestore.add.
  destruct (Firestore.storable (VObj data)); [|left; by eexists].
  right. destruct (remote_cases w) as [Hr | [msg Hr]].
  - right. rewrite (bind_Ok _ _ _ _ _ Hr).
    eexists. split; [reflexivity|]. apply fresh_id_unused.
  - left. rewrite (bind_Throw _ _ _ _ _ Hr). by eexists.
Qed.

Lemma elem_of_merge_sort {A} (R : relation A) `{∀ x y, Decision (R x y)}
    (l : list A) x :
  x ∈ merge_sort R l ↔ x ∈ l.
Proof. by rewrite merge_sort_Permutation. Qed.

Lemma equal_VStr x s : Firestore.equal x (VStr s) = true ↔ x = VStr s.
Proof.
  unfold Firestore.equal. destruct x as [| |b|[z|]|s'|t|l|m]; simpl; try done.
  destruct (String.compare s' s) eqn:Hc.
  - apply String.compare_eq_iff in Hc. by subst.
  - split; [done|]. intros [= ->]. by rewrite string_compare_refl in Hc.
  - split; [done|]. intros [= ->]. by rewrite string_compare_refl in Hc.
Qed.

Lemma where_eq_reliable coll field v w :
  reliable w → Firestore.storable v = true →
  ∃ snapshot,
    Firestore.where_eq coll field v w = (Ok snapshot, answered w)
    ∧ ∀ id data,
        (id, data) ∈ snapshot ↔
          db w !! (coll, [id]) = Some data
          ∧ ∃ x, data !! field = Some x ∧ Firestore.equal x v = true.
Proof.
  intros Hw Hv. unfold Firestore.where_eq. rewrite Hv.
  rewrite (bind_Ok _ _ _ _ _ (remote_reliable w Hw)).
  eexists. split; [reflexivity|]. intros id data. simpl.
  rewrite elem_of_merge_sort, list_elem_of_filter, elem_of_documents. simpl.
  split.
  - intros [Hx Hdoc]. split; [done|].
    destruct (data !! field) as [x|]; simpl in *; [|done].
    exists x. split; [done|]. by apply Is_true_true.
  - intros [Hdoc (x & -> & Hx)]. split; [|done]. simpl. by apply Is_true_true.
Qed.

Lemma orderBy_desc_reliable coll field w :
  reliable w →
  ∃ snapshot,
    Firestore.orderBy_desc coll field w = (Ok snapshot, answered w)
    ∧ ∀ id data,
        (id, data) ∈ snapshot ↔
          db w !! (coll, [id]) = Some data ∧ is_Some (data !! field).
Proof.
  intros Hw. unfold Firestore.orderBy_desc.
  rewrite (bind_Ok _ _ _ _ _ (remote_reliable w Hw)).
  eexists. split; [reflexivity|]. intros id data. simpl.
  rewrite elem_of_merge_sort, list_elem_of_filter, elem_of_documents. simpl.
  tauto.
Qed.

(** The lookup of [adminLogin] and [isAdmin] finds a document exactly when
    the email has a record. *)
Lemma admins_lookup w email :
  reliable w →
  ∃ adminDoc,
    Firestore.where_eq "admins" "email" (VStr email) w
    = (Ok adminDoc, answered w)
    ∧ (adminDoc ≠ [] ↔ admin_record w email).
Proof.
  intros Hw.
  destruct (where_eq_reliable "admins" "email" (VStr email) w Hw eq_refl)
    as (adminDoc & Hq & Hin).
  exists adminDoc. split; [exact Hq|]. unfold admin_record. split.
  - destruct adminDoc as [|[id data] rest]; [done|]. intros _.
    destruct (proj1 (Hin id data)) as (Hdoc & x & Hx & Heq); [left|].
    apply equal_VStr in Heq. subst x. eauto.
  - intros (id & data & Hdoc & Hemail) ->.
    assert ((id, data) ∈ @nil (string * obj)) as Habs;
      [|by apply not_elem_of_nil in Habs].
    apply Hin. split; [done|]. exists (VStr email).
    split; [done|]. by apply equal_VStr.
Qed.

(** ** The session *)

Lemma signIn_reliable w email password :
  reliable w → accounts w !! email = Some password →
  Auth.signInWithEmailAndPassword email password w
  = (Ok {[ "user" := VObj {[ "email" := VStr email ]} ]},
     set_currentUser (Some email) (answered w)).
Proof.
  intros Hw Hacc. unfold Auth.signInWithEmailAndPassword.
  rewrite (bind_Ok _ _ _ _ _ (remote_reliable w Hw)).
  rewrite (bind_Ok _ _ (answered w) (accounts w !! email) (answered w))
    by reflexivity.
  by rewrite Hacc, decide_True by done.
Qed.

Lemma signOut_reliable w :
  reliable w → Auth.signOut w = (Ok (), set_currentUser None (answered w)).
Proof.
  intros Hw. unfold Auth.signOut.
  by rewrite (bind_Ok _ _ _ _ _ (remote_reliable w Hw)).
Qed.

Lemma isAdmin_no_session w :
  currentUser w = None → isAdmin w = (Ok (VBool false), w).
Proof.
  intros Hnone. unfold isAdmin.
  rewrite (bind_Ok _ _ w (currentUser w) w) by reflexivity. by rewrite Hnone.
Qed.

(** ** Availability *)

(** What a call of [updateAvailability] does when the store answers every
    request: the slot counter of the date's document, created with the
    default slots if need be, is incremented. *)
Lemma updateAvailability_reliable w date time n ref path :
  reliable w →
  Firestore.doc_ref "availability" date = Some ref →
  Firestore.field_path ("slots." ++ to_string (date_text w) time ++ ".booked")
  = Some path →
  ∃ w',
    updateAvailability date time (VNum n) w = (Ok success, w')
    ∧ db w' = <[ref := Firestore.set_field path
                         (λ current, Firestore.incremented current n)
                         (default (default_day date) (db w !! ref))]> (db w)
    ∧ reliable w'.
Proof.
  intros Hw Href Hpath. unfold updateAvailability, try_catch.
  rewrite (bind_Ok _ _ _ _ _ (doc_Some _ _ _ _ Href)).
  rewrite (bind_Ok _ _ _ _ _ (get_reliable _ _ Hw)).
  pose proof (reliable_answered _ Hw) as Hw1.
  destruct (db w !! ref) as [data|] eqn:Hdoc.
  - rewrite (bind_Ok _ _ _ (()) (answered w)) by reflexivity.
    rewrite (bind_Ok _ _ _ (to_string (date_text w) time) (answered w))
      by reflexivity.
    rewrite (bind_Ok _ _ _ (Firestore.Increment n) (answered w)) by reflexivity.
    rewrite (bind_Ok _ _ _ _ _ (update_increment _ _ _ _ _ _ Hw1 Hpath Hdoc)).
    eexists. split; [reflexivity|]. simpl.
    split; [done | by apply reliable_answered].
  - rewrite (bind_Ok _ _ _ _ _
               (set_reliable _ _ _ Hw1 (storable_default_day _ _ _ Href))).
    set (w2 := set_db _ _).
    assert (reliable w2) as Hw2 by (by apply reliable_answered in Hw1).
    rewrite (bind_Ok _ _ _ (to_string (date_text w) time) w2) by reflexivity.
    rewrite (bind_Ok _ _ _ (Firestore.Increment n) w2) by reflexivity.
    assert (db w2 !! ref = Some (default_day date)) as Hdoc2
      by (subst w2; simpl; apply lookup_insert_eq).
    rewrite (bind_Ok _ _ _ _ _ (update_increment _ _ _ _ _ _ Hw2 Hpath Hdoc2)).
    eexists. split; [reflexivity|]. simpl.
    rewrite insert_insert_eq. split; [done | by apply reliable_answered in Hw2].
Qed.

(** [updateAvailability] returns an envelope whatever the store does: it
    never throws. *)
Lemma updateAvailability_envelope date time change w :
  ∃ r w', updateAvailability date time change w = (Ok r, w') ∧ envelope r.
Proof.
  apply try_catch_envelope. intros r w' H. bind_inv H.
  injection H as <- _. apply envelope_success.
Qed.

Lemma getAvailability_envelope date w :
  ∃ r w', getAvailability date w = (Ok r, w') ∧ envelope r.
Proof.
  apply try_catch_envelope. intros r w' H. bind_inv H.
  destruct a0; bind_inv H; injection H as <- _; left; eexists; by split.
Qed.

Lemma generateDefaultSlots_size : size generateDefaultSlots = 10%nat.
Proof. vm_compute. reflexivity. Qed.

Lemma generateDefaultSlots_entries :
  generateDefaultSlots
  = list_to_map
      ((λ time, (time, VObj {[ "booked" := VNum 0; "total" := VNum 100 ]})) <$>
         ["09:00"; "10:00"; "11:00"; "12:00"; "13:00"; "14:00"; "15:00";
          "16:00"; "17:00"; "18:00"]).
Proof. vm_compute. reflexivity. Qed.

(** ** Bookings *)

Lemma booking_record_fields bookingData createdAt updatedAt :
  booking_record bookingData createdAt updatedAt !! "status"
  = Some (VStr "pending")
  ∧ booking_record bookingData createdAt updatedAt !! "createdAt"
    = Some (VDate createdAt)
  ∧ booking_record bookingData createdAt updatedAt !! "updatedAt"
    = Some (VDate updatedAt)
  ∧ ∀ k, k ≠ "status" → k ≠ "createdAt" → k ≠ "updatedAt" →
      booking_record bookingData createdAt updatedAt !! k = bookingData !! k.
Proof.
  unfold booking_record. repeat split.
  - do 2 (rewrite lookup_insert_ne by done). apply lookup_insert_eq.
  - rewrite lookup_insert_ne by done. apply lookup_insert_eq.
  - apply lookup_insert_eq.
  - intros k ? ? ?. by do 3 (rewrite lookup_insert_ne by done).
Qed.

(** [createBooking], once the outcome of its insert is known: the result
    depends on the insert alone, and the world goes through
    [updateAvailability] when the insert succeeded. *)
Lemma createBooking_after_insert bookingData w :
  createBooking bookingData w
  = match Firestore.add "bookings"
            (booking_record bookingData (reading w) (reading (ticked w)))
            (ticked (ticked w)) with
    | (Ok id, w3) =>
        (Ok (VObj {[ "success" := VBool true; "id" := VStr id ]}),
         (updateAvailability (prop bookingData "date") (prop bookingData "time")
            (JS.add (date_text w3) (prop bookingData "kids")
               (prop bookingData "adults")) w3).2)
    | (Throw error, w3) => (Ok (failure error), w3)
    end.
Proof.
  unfold createBooking, try_catch.
  rewrite (bind_Ok _ _ w (VDate (reading w)) (ticked w)) by reflexivity.
  rewrite (bind_Ok _ _ (ticked w) (VDate (reading (ticked w)))
             (ticked (ticked w))) by reflexivity.
  fold (booking_record bookingData (reading w) (reading (ticked w))).
  unfold mbind at 1, M_bind at 1.
  destruct (Firestore.add _ _ _) as [[id|e] w3]; [|done].
  unfold host_add. unfold mbind at 1, M_bind at 1.
  destruct (updateAvailability_envelope (prop bookingData "date")
              (prop bookingData "time")
              (JS.add (date_text w3) (prop bookingData "kids")
                 (prop bookingData "adults")) w3) as (r & w' & Hu & _).
  by rewrite (bind_Ok _ _ _ _ _ Hu), Hu.
Qed.

(** [deleteBooking] touches no document but the one it was given. *)
Lemma deleteBooking_frame bookingId w ref' :
  Firestore.doc_ref "bookings" bookingId ≠ Some ref' →
  db (deleteBooking bookingId w).2 !! ref' = db w !! ref'.
Proof.
  intros Hne. unfold deleteBooking, try_catch, Firestore.doc.
  destruct (Firestore.doc_ref "bookings" bookingId) as [ref|] eqn:Href; [|done].
  rewrite (bind_Ok _ _ w ref w) by reflexivity.
  unfold Firestore.delete.
  destruct (remote_cases w) as [Hr | [msg Hr]].
  - rewrite (bind_Ok _ _ _ _ _ (bind_Ok _ _ _ _ _ Hr)) by reflexivity.
    simpl. apply lookup_delete_ne. congruence.
  - by rewrite (bind_Throw _ _ _ _ _ (bind_Throw _ _ _ _ _ Hr)).
Qed.

Lemma update_confirm_parse t :
  mapM Firestore.parse_update
    (map_to_list (Firestore.Put <$>
       <["updatedAt" := VDate t]> ({[ "status" := VStr "confirmed" ]} : obj)))
  = Some [(["status"], Firestore.Put (VStr "confirmed"));
          (["updatedAt"], Firestore.Put (VDate t))].
Proof. vm_compute. reflexivity. Qed.

(** ** Calls that interleave *)

Lemma resume_get d t c ref w :
  Concurrent.resume (Concurrent.Call d t c (Concurrent.AwaitGet ref)) w
  = match Firestore.get ref w with
    | (Ok (Some _), w') => (Concurrent.Call d t c (Concurrent.AwaitUpdate ref), w')
    | (Ok None, w') => (Concurrent.Call d t c (Concurrent.AwaitSet ref), w')
    | (Throw e, w') =>
        (Concurrent.Call d t c (Concurrent.Returned (failure e)), w')
    end.
Proof.
  unfold Concurrent.resume, Concurrent.continue, mbind, M_bind. simpl.
  by destruct (Firestore.get ref w) as [[[data|]|e] w'].
Qed.

Lemma resume_set d t c ref w :
  Concurrent.resume (Concurrent.Call d t c (Concurrent.AwaitSet ref)) w
  = match Firestore.set ref (default_day d) w with
    | (Ok _, w') => (Concurrent.Call d t c (Concurrent.AwaitUpdate ref), w')
    | (Throw e, w') =>
        (Concurrent.Call d t c (Concurrent.Returned (failure e)), w')
    end.
Proof.
  unfold Concurrent.resume, Concurrent.continue, mbind, M_bind. simpl.
  by destruct (Firestore.set ref _ w) as [[[]|e] w'].
Qed.

Lemma resume_update d t c ref w :
  Concurrent.resume (Concurrent.Call d t c (Concurrent.AwaitUpdate ref)) w
  = match Firestore.increment c w with
    | (Ok by_change, w1) =>
        match Firestore.update ref
                {[ "slots." ++ to_string (date_text w) t ++ ".booked"
                   := by_change ]} w1 with
        | (Ok _, w') => (Concurrent.Call d t c (Concurrent.Returned success), w')
        | (Throw e, w') =>
            (Concurrent.Call d t c (Concurrent.Returned (failure e)), w')
        end
    | (Throw e, w') =>
        (Concurrent.Call d t c (Concurrent.Returned (failure e)), w')
    end.
Proof.
  unfold Concurrent.resume, Concurrent.continue, mbind, M_bind, host_string. simpl.
  destruct (Firestore.increment c w) as [[u|e] w1]; [|done].
  by destruct (Firestore.update ref _ w1) as [[[]|e] w'].
Qed.

(** A call that runs alone is the method itself: the stages are the
    method cut at its [await]s. *)
Lemma alone_updateAvailability d t c w :
  ∃ r w',
    updateAvailability d t c w = (Ok r, w')
    ∧ Concurrent.alone (Concurrent.invoke d t c) w
      = (Concurrent.Call d t c (Concurrent.Returned r), w').
Proof.
  unfold updateAvailability, Concurrent.alone, Concurrent.invoke, try_catch,
    Firestore.doc.
  destruct (Firestore.doc_ref "availability" d) as [ref|]; [|by eexists _, _].
  rewrite resume_get. unfold mbind, M_bind, mret, M_ret, host_string.
  destruct (Firestore.get ref w) as [[[data|]|e] w1]; [| |by eexists _, _].
  - rewrite resume_update.
    destruct (Firestore.increment c w1) as [[u|e] w2]; [|by eexists _, _].
    destruct (Firestore.update ref _ w2) as [[[]|e] w3]; by eexists _, _.
  - rewrite resume_set. unfold default_day.
    destruct (Firestore.set ref _ w1) as [[[]|e] w2]; [|by eexists _, _].
    rewrite resume_update.
    destruct (Firestore.increment c w2) as [[u|e] w3]; [|by eexists _, _].
    destruct (Firestore.update ref _ w3) as [[[]|e] w4]; by eexists _, _.
Qed.

Lemma finished_insert calls i c c' :
  calls !! i = Some c →
  finished (<[i := c']> calls)
  = finished calls + (if Concurrent.returned c' then 1 else 0)
    - (if Concurrent.returned c then 1 else 0).
Proof.
  revert i. induction calls as [|x calls IH]; intros [|i] Hi; simplify_eq/=.
  - lia.
  - rewrite (IH _ Hi). lia.
Qed.

Lemma finished_all calls :
  Forall (λ c, Concurrent.returned c = true) calls →
  finished calls = Z.of_nat (length calls).
Proof.
  induction 1 as [|c calls Hc _ IH]; simpl; [done|]. rewrite Hc, IH. lia.
Qed.

Lemma finished_replicate n c :
  Concurrent.returned c = false → finished (replicate n c) = 0.
Proof. intros Hc. induction n as [|n IH]; simpl; [done|]. by rewrite Hc, IH. Qed.

Section existing_day.

Context (d : value) (t : string) (ref : docref).
Hypothesis slot : slot_key t = true.

(** One step of a call on a date whose document exists: the call stays on
    track and the counter moves by one exactly when the call returns. *)
Lemma resume_on_track c w data (n : Z) :
  on_track d t ref c → reliable w →
  db w !! ref = Some data → booked t data = VNum n →
  ∃ c' w' data',
    Concurrent.resume c w = (c', w') ∧ on_track d t ref c' ∧ reliable w'
    ∧ db w' !! ref = Some data'
    ∧ booked t data'
      = VNum (n + (if Concurrent.returned c' then 1 else 0)
              - (if Concurrent.returned c then 1 else 0)).
Proof.
  intros (Hd & Htime & Hch & Hst) Hw Hdoc Hn. destruct c as [cd ct cc st].
  simpl in *. subst cd ct cc. destruct Hst as [-> | [-> | ->]].
  - rewrite resume_get, (get_reliable _ _ Hw), Hdoc.
    eexists _, _, data. split; [reflexivity|]. simpl.
    split; [repeat split; eauto|]. split; [by apply reliable_answered|].
    split; [done|]. rewrite Hn. do 2 f_equal. lia.
  - rewrite resume_update. simpl.
    rewrite (update_increment _ _ _ _ _ _ Hw (field_path_slot _ slot) Hdoc).
    eexists _, _, _. split; [reflexivity|]. simpl.
    split; [repeat split; eauto|]. split; [by apply reliable_answered|].
    split; [apply lookup_insert_eq|].
    unfold booked in *. rewrite get_at_set_field, Hn. simpl. do 2 f_equal. lia.
  - eexists _, _, data. split; [reflexivity|]. simpl.
    split; [repeat split; eauto|]. do 2 (split; [done|]).
    rewrite Hn. do 2 f_equal. lia.
Qed.

(** Along every schedule the counter is its first value plus the number of
    calls that have returned. *)
Lemma run_on_track schedule : ∀ calls w data (n : Z) calls' w',
  Forall (on_track d t ref) calls → reliable w →
  db w !! ref = Some data → booked t data = VNum (n + finished calls) →
  Concurrent.run schedule calls w = (calls', w') →
  ∃ data',
    Forall (on_track d t ref) calls' ∧ length calls' = length calls
    ∧ db w' !! ref = Some data' ∧ booked t data' = VNum (n + finished calls').
Proof.
  induction schedule as [|i schedule IH];
    intros calls w data n calls' w' Hall Hw Hdoc Hn Hrun.
  - simpl in Hrun. simplify_eq. eauto.
  - simpl in Hrun. destruct (calls !! i) as [c|] eqn:Hi; [|by eapply IH].
    assert (on_track d t ref c) as Hc by (eapply Forall_lookup_1; eauto).
    destruct (resume_on_track c w data _ Hc Hw Hdoc Hn)
      as (c1 & w1 & data1 & Hres & Hc1 & Hw1 & Hdoc1 & Hn1).
    rewrite Hres in Hrun.
    eapply IH in Hrun as (data' & ? & Hlen & ? & ?); eauto.
    + exists data'. rewrite length_insert in Hlen. eauto.
    + apply Forall_insert; eauto.
    + rewrite Hn1, (finished_insert _ _ _ _ Hi). do 2 f_equal. lia.
Qed.

End existing_day.

(** X5. On a date whose document exists the increments of concurrent calls
    of [updateAvailability] add up, in whatever order the store answers
    them: once every call has returned, the counter is its first value plus
    the number of calls, and every call has returned the success envelope.
    The counter itself is never read and written back. *)
Lemma concurrent_updateAvailability_existing_day
    (w : world) (d : value) (t : string) (ref : docref) (data : obj) (b : Z)
    (N : nat) (schedule : list nat) (calls' : list Concurrent.call)
    (w' : world) :
  reliable w →
  Firestore.doc_ref "availability" d = Some ref →
  slot_key t = true →
  db w !! ref = Some data →
  booked t data = VNum b →
  Concurrent.run schedule
    (replicate N (Concurrent.invoke d (VStr t) (VNum 1))) w = (calls', w') →
  Forall (λ c, Concurrent.returned c = true) calls' →
  ∃ data',
    db w' !! ref = Some data' ∧ booked t data' = VNum (b + Z.of_nat N)
    ∧ Forall (λ c, Concurrent.at_stage c = Concurrent.Returned success) calls'.
Proof.
  intros Hw Href Ht Hdoc Hb Hrun Hall.
  assert (Concurrent.invoke d (VStr t) (VNum 1)
          = Concurrent.Call d (VStr t) (VNum 1) (Concurrent.AwaitGet ref))
    as Hinv by (unfold Concurrent.invoke; by rewrite Href).
  rewrite Hinv in Hrun.
  eapply (run_on_track d t ref Ht) with (n := b) in Hrun
    as (data' & Htrack & Hlen & Hdoc' & Hb'); eauto.
  - exists data'. split; [done|]. split.
    + by rewrite Hb', (finished_all _ Hall), Hlen, length_replicate.
    + eapply Forall_impl.
      { apply Forall_and. split; [exact Htrack | exact Hall]. }
      intros c [(_ & _ & _ & [Hs | [Hs | Hs]]) Hr];
        unfold Concurrent.returned in Hr; rewrite Hs in Hr; done.
  - apply Forall_replicate. repeat split; auto.
  - rewrite finished_replicate by done. rewrite Hb. do 2 f_equal. lia.
Qed.

Lemma concurrent_updateAvailability_existing_day_witness :
  reliable one_booking
  ∧ Firestore.doc_ref "availability" (VStr "2024-06-01")
    = Some ("availability", ["2024-06-01"])
  ∧ slot_key "10:00" = true
  ∧ Forall (λ c, Concurrent.returned c = true)
      (Concurrent.run [0; 1; 1; 0]%nat
         (replicate 2
            (Concurrent.invoke (VStr "2024-06-01") (VStr "10:00") (VNum 1)))
         one_booking).1
  ∧ ∃ data',
      db (Concurrent.run [0; 1; 1; 0]%nat
            (replicate 2
               (Concurrent.invoke (VStr "2024-06-01") (VStr "10:00") (VNum 1)))
            one_booking).2 !! ("availability", ["2024-06-01"]) = Some data'
      ∧ booked "10:00" data' = VNum (3 + Z.of_nat 2)
      ∧ Forall (λ c, Concurrent.at_stage c = Concurrent.Returned success)
          (Concurrent.run [0; 1; 1; 0]%nat
             (replicate 2
                (Concurrent.invoke (VStr "2024-06-01") (VStr "10:00") (VNum 1)))
             one_booking).1.
Proof.
  assert (reliable one_booking) as Hw by constructor.
  assert (Forall (λ c, Concurrent.returned c = true)
            (Concurrent.run [0; 1; 1; 0]%nat
               (replicate 2
                  (Concurrent.invoke (VStr "2024-06-01") (VStr "10:00")
                     (VNum 1)))
               one_booking).1) as Hall
    by (vm_compute; repeat constructor).
  exact (conj Hw (conj eq_refl (conj eq_refl (conj Hall
           (concurrent_updateAvailability_existing_day one_booking
              (VStr "2024-06-01") "10:00" ("availability", ["2024-06-01"])
              _ 3 2 [0; 1; 1; 0]%nat _ _ Hw eq_refl eq_refl eq_refl eq_refl
              (surjective_pairing _) Hall))))).
Defined.

(** Two calls on the sample store whose document for the date exists, in
    an order in which they overlap. *)
Example concurrent_updateAvailability_existing_day_two :
  (booked "10:00" <$>
     db (Concurrent.run [0; 1; 1; 0]%nat
           (replicate 2
              (Concurrent.invoke (VStr "2024-06-01") (VStr "10:00") (VNum 1)))
           one_booking).2 !! ("availability", ["2024-06-01"]))
  = Some (VNum 5).
Proof. vm_compute. reflexivity. Qed.

(** ** Data that the store accepts *)

Lemma storable_obj (m : obj) :
  Firestore.storable (VObj m) = true
  ↔ map_Forall (λ k x, k ≠ EmptyString ∧ Firestore.storable x = true) m.
Proof.
  simpl.
  apply (map_fold_weak_ind
           (λ b (m : obj),
              b = true
              ↔ map_Forall (λ k x, k ≠ EmptyString ∧ Firestore.storable x = true)
                  m)).
  - split; [intros _; apply map_Forall_empty | done].
  - intros i x m' r Hi IH. rewrite map_Forall_insert by done.
    rewrite !andb_true_iff, negb_true_iff, String.eqb_neq, IH. tauto.
Qed.

Lemma storable_booking_record bookingData createdAt updatedAt :
  Firestore.storable (VObj bookingData) = true →
  Firestore.storable (VObj (booking_record bookingData createdAt updatedAt)) = true.
Proof.
  rewrite !storable_obj. intros H. unfold booking_record.
  repeat (apply map_Forall_insert_2; [done|]). exact H.
Qed.

Lemma mapM_parse_plain (l : list (string * Firestore.field_update)) :
  Forall (λ x, Firestore.parse_update x = Some ([x.1], x.2)) l →
  mapM Firestore.parse_update l = Some ((λ x, ([x.1], x.2)) <$> l).
Proof.
  induction 1 as [|x l Hx _ IH]; [done|].
  simpl. rewrite Hx. simpl. by rewrite IH.
Qed.

(** ** Requests that the store fails *)







(** ** What each booking method makes of the outcome of its store call *)






(** * Properties of the service *)

(** ** Availability *)

(** C1. On a date that has no availability document yet, and when the store
    answers every request, [updateAvailability(date, "09:00", 5)] followed by
    [getAvailability(date)] returns slots in which [slots["09:00"].booked]
    is 5: the other default slots are as generated. *)
Theorem updateAvailability_then_getAvailability
    (w : world) (date : value) (ref : docref) :
  Firestore.doc_ref "availability" date = Some ref →
  db w !! ref = None →
  reliable w →
  ∃ w1 w2 slots slot,
    updateAvailability date (VStr "09:00") (VNum 5) w = (Ok success, w1)
    ∧ getAvailability date w1
      = (Ok (VObj {[ "success" := VBool true; "slots" := VObj slots ]}), w2)
    ∧ slots !! "09:00" = Some (VObj slot)
    ∧ slot !! "booked" = Some (VNum 5)
    ∧ slots
      = <["09:00" := VObj {[ "booked" := VNum 5; "total" := VNum 100 ]}]>
          generateDefaultSlots.
Proof.
  intros Href Hnone Hw.
  destruct (updateAvailability_reliable w date (VStr "09:00") 5 ref
              ["slots"; "09:00"; "booked"] Hw Href eq_refl)
    as (w1 & Hupd & Hdb & Hw1).
  rewrite Hnone in Hdb. simpl in Hdb.
  exists w1. unfold getAvailability, try_catch.
  rewrite (bind_Ok _ _ _ _ _ (doc_Some _ _ _ _ Href)).
  rewrite (bind_Ok _ _ _ _ _ (get_reliable _ _ Hw1)).
  rewrite Hdb, lookup_insert_eq.
  eexists _, (<["09:00" := VObj {[ "booked" := VNum 5; "total" := VNum 100 ]}]>
                generateDefaultSlots), _.
  split; [exact Hupd|]. split; [|split; [|split]].
  - destruct date; try discriminate. vm_compute. reflexivity.
  - vm_compute. reflexivity.
  - vm_compute. reflexivity.
  - reflexivity.
Qed.

Lemma updateAvailability_then_getAvailability_witness :
  Firestore.doc_ref "availability" (VStr "2024-06-01")
  = Some ("availability", ["2024-06-01"])
  ∧ db day_one !! ("availability", ["2024-06-01"]) = None
  ∧ reliable day_one
  ∧ ∃ w1 w2 slots slot,
      updateAvailability (VStr "2024-06-01") (VStr "09:00") (VNum 5) day_one
      = (Ok success, w1)
      ∧ getAvailability (VStr "2024-06-01") w1
        = (Ok (VObj {[ "success" := VBool true; "slots" := VObj slots ]}), w2)
      ∧ slots !! "09:00" = Some (VObj slot)
      ∧ slot !! "booked" = Some (VNum 5)
      ∧ slots
        = <["09:00" := VObj {[ "booked" := VNum 5; "total" := VNum 100 ]}]>
            generateDefaultSlots.
Proof.
  assert (reliable day_one) as Hw by constructor.
  exact (conj eq_refl (conj eq_refl (conj Hw
           (updateAvailability_then_getAvailability day_one
              (VStr "2024-06-01") ("availability", ["2024-06-01"])
              eq_refl eq_refl Hw)))).
Defined.

(** C2. On a date that has no availability document yet, and when the store
    answers, [getAvailability(date)] returns the success envelope with the
    default slots and stores them under the date. The default slots are the
    ten keys 09:00 to 18:00, each with booked 0 and total 100. *)
Theorem getAvailability_fresh_date (w : world) (date : value) (ref : docref) :
  Firestore.doc_ref "availability" date = Some ref →
  db w !! ref = None →
  reliable w →
  ∃ w',
    getAvailability date w
    = (Ok (VObj {[ "success" := VBool true;
                   "slots" := VObj generateDefaultSlots ]}), w')
    ∧ db w'
      = <[ref := {[ "date" := date; "slots" := VObj generateDefaultSlots ]}]>
          (db w)
    ∧ size generateDefaultSlots = 10%nat
    ∧ generateDefaultSlots
      = list_to_map
          ((λ time, (time, VObj {[ "booked" := VNum 0; "total" := VNum 100 ]}))
             <$> ["09:00"; "10:00"; "11:00"; "12:00"; "13:00"; "14:00"; "15:00";
                  "16:00"; "17:00"; "18:00"]).
Proof.
  intros Href Hnone Hw. unfold getAvailability, try_catch.
  rewrite (bind_Ok _ _ _ _ _ (doc_Some _ _ _ _ Href)).
  rewrite (bind_Ok _ _ _ _ _ (get_reliable _ _ Hw)). rewrite Hnone.
  rewrite (bind_Ok _ _ _ _ _ (doc_Some _ _ _ _ Href)).
  rewrite (bind_Ok _ _ _ _ _
             (set_reliable _ _ _ (reliable_answered _ Hw)
                (storable_default_day _ _ _ Href))).
  eexists. split; [reflexivity|]. split; [reflexivity|].
  split; [apply generateDefaultSlots_size | apply generateDefaultSlots_entries].
Qed.

Lemma getAvailability_fresh_date_witness :
  Firestore.doc_ref "availability" (VStr "2024-06-01")
  = Some ("availability", ["2024-06-01"])
  ∧ db day_one !! ("availability", ["2024-06-01"]) = None
  ∧ reliable day_one
  ∧ ∃ w',
      getAvailability (VStr "2024-06-01") day_one
      = (Ok (VObj {[ "success" := VBool true;
                     "slots" := VObj generateDefaultSlots ]}), w')
      ∧ db w'
        = <[("availability", ["2024-06-01"]) :=
              {[ "date" := VStr "2024-06-01";
                 "slots" := VObj generateDefaultSlots ]}]> (db day_one)
      ∧ size generateDefaultSlots = 10%nat
      ∧ generateDefaultSlots
        = list_to_map
            ((λ time,
                (time, VObj {[ "booked" := VNum 0; "total" := VNum 100 ]}))
               <$> ["09:00"; "10:00"; "11:00"; "12:00"; "13:00"; "14:00";
                    "15:00"; "16:00"; "17:00"; "18:00"]).
Proof.
  assert (reliable day_one) as Hw by constructor.
  exact (conj eq_refl (conj eq_refl (conj Hw
           (getAvailability_fresh_date day_one (VStr "2024-06-01")
              ("availability", ["2024-06-01"]) eq_refl eq_refl Hw)))).
Defined.

(** C9. Two calls of [updateAvailability(date, "09:00", 1)] for a date that
    has no document yet, answered in the order get, get, set, update, set,
    update: both return success and [slots["09:00"].booked] is 1, not 2. The
    second write of the default slots erases the first increment. *)
Theorem concurrent_updateAvailability_lost_update :
  db day_one !! ("availability", ["2024-06-01"]) = None
  ∧ Forall (λ c, Concurrent.at_stage c = Concurrent.Returned success)
      (Concurrent.run [0; 1; 0; 0; 1; 1]%nat two_calls day_one).1
  ∧ (booked "09:00" <$>
       db (Concurrent.run [0; 1; 0; 0; 1; 1]%nat two_calls day_one).2
       !! ("availability", ["2024-06-01"]))
    = Some (VNum 1).
Proof.
  split; [vm_compute; reflexivity|]. split; [|vm_compute; reflexivity].
  vm_compute. by repeat constructor.
Qed.

(** The same two calls one after the other count both. *)
Example sequential_updateAvailability_counts_both :
  (booked "09:00" <$>
     db (Concurrent.run [0; 0; 0; 1; 1; 1]%nat two_calls day_one).2
     !! ("availability", ["2024-06-01"]))
  = Some (VNum 2).
Proof. vm_compute. reflexivity. Qed.

(** ** Bookings *)

(** C3. [createBooking(bookingData)] inserts the data with the status forced
    to pending and with [createdAt] and [updatedAt] read from the clock, one
    after the other, at the call. When the insert fails, the result is the
    failure envelope with the message of the error and nothing is stored.
    When the insert succeeds, the booking is stored under an identifier that
    was not in use, the result is the success envelope with that identifier,
    and the world is the one [updateAvailability(date, time, kids + adults)]
    leaves: for a date and a slot key in order, numbers of kids and adults,
    and a store that answers, the slot counter is incremented by
    [kids + adults]. *)
Theorem createBooking_inserts_pending_and_updates_availability
    (bookingData : obj) (w : world) :
  (booking_record bookingData (reading w) (reading (ticked w)) !! "status"
   = Some (VStr "pending")
   ∧ booking_record bookingData (reading w) (reading (ticked w)) !! "createdAt"
     = Some (VDate (reading w))
   ∧ booking_record bookingData (reading w) (reading (ticked w)) !! "updatedAt"
     = Some (VDate (reading (ticked w)))
   ∧ ∀ k, k ≠ "status" → k ≠ "createdAt" → k ≠ "updatedAt" →
       booking_record bookingData (reading w) (reading (ticked w)) !! k
       = bookingData !! k)
  ∧ match Firestore.add "bookings"
            (booking_record bookingData (reading w) (reading (ticked w)))
            (ticked (ticked w)) with
    | (Throw error, w3) =>
        createBooking bookingData w
        = (Ok (VObj {[ "success" := VBool false;
                       "error" := VStr (message error) ]}), w3)
        ∧ db w3 = db w
    | (Ok id, w3) =>
        db w !! ("bookings", [id]) = None
        ∧ db w3
          = <[("bookings", [id]) :=
                booking_record bookingData (reading w) (reading (ticked w))]>
              (db w)
        ∧ ∃ w',
            createBooking bookingData w
            = (Ok (VObj {[ "success" := VBool true; "id" := VStr id ]}), w')
            ∧ w' = (updateAvailability (prop bookingData "date")
                      (prop bookingData "time")
                      (JS.add (date_text w3) (prop bookingData "kids")
                         (prop bookingData "adults")) w3).2
            ∧ ∀ (d t : string) (k a : Z) (ref : docref),
                bookingData !! "date" = Some (VStr d) →
                bookingData !! "time" = Some (VStr t) →
                bookingData !! "kids" = Some (VNum k) →
                bookingData !! "adults" = Some (VNum a) →
                Firestore.doc_ref "availability" (VStr d) = Some ref →
                slot_key t = true →
                reliable w3 →
                ∃ data',
                  db w' !! ref = Some data'
                  ∧ booked t data'
                    = Firestore.incremented
                        (booked t
                           (default (default_day (VStr d)) (db w3 !! ref)))
                        (k + a)
    end.
Proof.
  split; [apply booking_record_fields|].
  rewrite createBooking_after_insert.
  destruct (add_cases "bookings"
              (booking_record bookingData (reading w) (reading (ticked w)))
              (ticked (ticked w))) as [[e ->] | [[e ->] | (id & -> & Hfresh)]].
  - done.
  - done.
  - split; [exact Hfresh|]. split; [reflexivity|].
    eexists. split; [reflexivity|]. split; [reflexivity|].
    intros d t k a ref Hd Ht Hk Ha Href Hkey Hw3.
    unfold prop. rewrite Hd, Ht, Hk, Ha. simpl.
    set (w3 := set_db _ _) in *.
    change (JS.add _ (VNum k) (VNum a)) with (VNum (k + a)).
    destruct (updateAvailability_reliable w3 (VStr d) (VStr t) (k + a) ref
                ["slots"; t; "booked"] Hw3 Href (field_path_slot _ Hkey))
      as (w' & -> & Hdb & _).
    simpl. rewrite Hdb, lookup_insert_eq. eexists. split; [reflexivity|].
    unfold booked. by rewrite get_at_set_field.
Qed.

Lemma createBooking_inserts_pending_and_updates_availability_witness :
  ∃ w' data',
    createBooking family_booking day_one
    = (Ok (VObj {[ "success" := VBool true; "id" := VStr "0" ]}), w')
    ∧ db w' !! ("bookings", ["0"]) = Some (booking_record family_booking 0 0)
    ∧ db w' !! ("availability", ["2024-06-01"]) = Some data'
    ∧ booked "10:00" data' = VNum 3.
Proof.
  destruct (createBooking_inserts_pending_and_updates_availability
              family_booking day_one) as [_ H].
  assert (Firestore.add "bookings"
            (booking_record family_booking (reading day_one)
               (reading (ticked day_one)))
            (ticked (ticked day_one))
          = (Ok "0",
             set_db {[ ("bookings", ["0"]) := booking_record family_booking 0 0 ]}
               (answered day_one))) as Hadd
    by (vm_compute; reflexivity).
  rewrite Hadd in H. destruct H as (_ & _ & w' & Hcreate & Hw' & Hinc).
  destruct (Hinc "2024-06-01" "10:00" 2 1 ("availability", ["2024-06-01"]))
    as (data' & Hdoc & Hbooked); try reflexivity; [repeat constructor|].
  exists w', data'. split; [exact Hcreate|]. split; [|split; [exact Hdoc|]].
  - rewrite Hw'. vm_compute. reflexivity.
  - rewrite Hbooked. vm_compute. reflexivity.
Defined.

(** C10. As soon as the insert succeeds, [createBooking] returns the success
    envelope with the new identifier, whatever the store then does:
    [updateAvailability] returns an envelope, a failure envelope when one of
    its requests fails, and never throws, and [createBooking] does not look
    at that envelope. *)
Theorem createBooking_ignores_availability_failure
    (bookingData : obj) (w : world) (id : string) (w3 : world) :
  Firestore.add "bookings"
    (booking_record bookingData (reading w) (reading (ticked w)))
    (ticked (ticked w)) = (Ok id, w3) →
  ∃ r w',
    updateAvailability (prop bookingData "date") (prop bookingData "time")
      (JS.add (date_text w3) (prop bookingData "kids")
         (prop bookingData "adults")) w3 = (Ok r, w')
    ∧ envelope r
    ∧ createBooking bookingData w
      = (Ok (VObj {[ "success" := VBool true; "id" := VStr id ]}), w').
Proof.
  intros Hadd. rewrite createBooking_after_insert, Hadd.
  destruct (updateAvailability_envelope (prop bookingData "date")
              (prop bookingData "time")
              (JS.add (date_text w3) (prop bookingData "kids")
                 (prop bookingData "adults")) w3) as (r & w' & Hu & Hr).
  exists r, w'. by rewrite Hu.
Qed.

Lemma createBooking_ignores_availability_failure_witness :
  Firestore.add "bookings"
    (booking_record family_booking (reading failing_availability)
       (reading (ticked failing_availability)))
    (ticked (ticked failing_availability))
  = (Ok "0",
     set_db {[ ("bookings", ["0"]) := booking_record family_booking 0 0 ]}
       (answered failing_availability))
  ∧ ∃ r w',
      updateAvailability (VStr "2024-06-01") (VStr "10:00") (VNum 3)
        (set_db {[ ("bookings", ["0"]) := booking_record family_booking 0 0 ]}
           (answered failing_availability)) = (Ok r, w')
      ∧ envelope r
      ∧ createBooking family_booking failing_availability
        = (Ok (VObj {[ "success" := VBool true; "id" := VStr "0" ]}), w').
Proof.
  assert (Firestore.add "bookings"
            (booking_record family_booking (reading failing_availability)
               (reading (ticked failing_availability)))
            (ticked (ticked failing_availability))
          = (Ok "0",
             set_db {[ ("bookings", ["0"]) := booking_record family_booking 0 0 ]}
               (answered failing_availability))) as Hadd
    by (vm_compute; reflexivity).
  split; [exact Hadd|].
  exact (createBooking_ignores_availability_failure family_booking
           failing_availability "0" _ Hadd).
Defined.

(** In that world the update of the availability does fail, and the booking
    is stored without any slot being counted. *)
Example createBooking_with_failing_availability :
  (updateAvailability (VStr "2024-06-01") (VStr "10:00") (VNum 3)
     (set_db {[ ("bookings", ["0"]) := booking_record family_booking 0 0 ]}
        (answered failing_availability))).1
  = Ok (failure (Error "unavailable"))
  ∧ (createBooking family_booking failing_availability).1
    = Ok (VObj {[ "success" := VBool true; "id" := VStr "0" ]})
  ∧ db (createBooking family_booking failing_availability).2
    !! ("availability", ["2024-06-01"]) = None.
Proof. split; [|split]; vm_compute; reflexivity. Qed.

(** Counts that arrive as strings are concatenated by [+]: the booking is
    stored, [FieldValue.increment] refuses the string inside
    [updateAvailability], and no slot is counted. *)
Example createBooking_string_counts :
  (createBooking (<["kids" := VStr "2"]> family_booking) day_one).1
  = Ok (VObj {[ "success" := VBool true; "id" := VStr "0" ]})
  ∧ (booked "10:00" <$>
       db (createBooking (<["kids" := VStr "2"]> family_booking) day_one).2
       !! ("availability", ["2024-06-01"]))
    = Some (VNum 0).
Proof. split; vm_compute; reflexivity. Qed.



(** C6. On an existing booking, and when the store answers,
    [updateBooking(id, { status: "confirmed" })] sets the status and
    [updatedAt], read from the clock, and nothing else: the other fields of
    the record, the other documents, and the availability documents among
    them, are as before. *)
Theorem updateBooking_confirm_changes_status_only
    (w : world) (bookingId : value) (ref : docref) (data : obj) :
  Firestore.doc_ref "bookings" bookingId = Some ref →
  db w !! ref = Some data →
  reliable w →
  ∃ w' data',
    updateBooking bookingId {[ "status" := VStr "confirmed" ]} w
    = (Ok success, w')
    ∧ db w' !! ref = Some data'
    ∧ data' !! "status" = Some (VStr "confirmed")
    ∧ data' !! "updatedAt" = Some (VDate (reading w))
    ∧ (∀ k, k ≠ "status" → k ≠ "updatedAt" → data' !! k = data !! k)
    ∧ (∀ ref', ref' ≠ ref → db w' !! ref' = db w !! ref')
    ∧ (∀ path,
         db w' !! ("availability", path) = db w !! ("availability", path)).
Proof.
  intros Href Hdoc Hw. unfold updateBooking, try_catch.
  rewrite (bind_Ok _ _ _ _ _ (doc_Some _ _ _ _ Href)).
  rewrite (bind_Ok _ _ w (VDate (reading w)) (ticked w)) by reflexivity.
  assert (reliable (ticked w)) as Hw1 by done.
  rewrite (bind_Ok _ _ _ _ _
             (update_reliable ref _ _ data (ticked w) Hw1
                (update_confirm_parse (reading w)) Hdoc)).
  eexists _, _. split; [reflexivity|]. simpl.
  split; [apply lookup_insert_eq|].
  rewrite !set_field_cons. simpl.
  split; [by rewrite lookup_insert_ne, lookup_insert_eq|].
  split; [apply lookup_insert_eq|].
  split; [intros k ? ?; by do 2 (rewrite lookup_insert_ne by done)|].
  split; [intros ref' ?; by rewrite lookup_insert_ne|].
  intros path. rewrite lookup_insert_ne; [done|].
  intros ->. by apply doc_ref_collection in Href.
Qed.

Lemma updateBooking_confirm_changes_status_only_witness :
  Firestore.doc_ref "bookings" (VStr "b1") = Some ("bookings", ["b1"])
  ∧ db one_booking !! ("bookings", ["b1"])
    = Some (booking_record family_booking 0 0)
  ∧ reliable one_booking
  ∧ ∃ w' data',
      updateBooking (VStr "b1") {[ "status" := VStr "confirmed" ]} one_booking
      = (Ok success, w')
      ∧ db w' !! ("bookings", ["b1"]) = Some data'
      ∧ data' !! "status" = Some (VStr "confirmed")
      ∧ data' !! "updatedAt" = Some (VDate (reading one_booking))
      ∧ (∀ k, k ≠ "status" → k ≠ "updatedAt" →
           data' !! k = booking_record family_booking 0 0 !! k)
      ∧ (∀ ref', ref' ≠ ("bookings", ["b1"]) →
           db w' !! ref' = db one_booking !! ref')
      ∧ (∀ path,
           db w' !! ("availability", path)
           = db one_booking !! ("availability", path)).
Proof.
  assert (db one_booking !! ("bookings", ["b1"])
          = Some (booking_record family_booking 0 0)) as Hdoc
    by (vm_compute; reflexivity).
  assert (reliable one_booking) as Hw by constructor.
  exact (conj eq_refl (conj Hdoc (conj Hw
           (updateBooking_confirm_changes_status_only one_booking (VStr "b1")
              ("bookings", ["b1"]) _ eq_refl Hdoc Hw)))).
Defined.

(** C5. [deleteBooking(id)] leaves every availability document as it is,
    whatever the store answers. When the store answers, the record is gone,
    every other document is as before, and the records that
    [getAllBookings] then returns are records of other documents. *)
Theorem deleteBooking_removes_record_only (bookingId : value) (w : world) :
  (∀ path,
     db (deleteBooking bookingId w).2 !! ("availability", path)
     = db w !! ("availability", path))
  ∧ (∀ ref,
       Firestore.doc_ref "bookings" bookingId = Some ref →
       reliable w →
       ∃ w',
         deleteBooking bookingId w = (Ok success, w')
         ∧ db w' !! ref = None
         ∧ (∀ ref', ref' ≠ ref → db w' !! ref' = db w !! ref')
         ∧ ∃ snapshot w'',
             getAllBookings w'
             = (Ok (VObj {[ "success" := VBool true;
                            "bookings" := VArr (with_id <$> snapshot) ]}), w'')
             ∧ ∀ id data,
                 (id, data) ∈ snapshot →
                 ("bookings", [id]) ≠ ref
                 ∧ db w !! ("bookings", [id]) = Some data).
Proof.
  split.
  - intros path. apply deleteBooking_frame.
    intros Href%doc_ref_collection. discriminate.
  - intros ref Href Hw. unfold deleteBooking, try_catch.
    rewrite (bind_Ok _ _ _ _ _ (doc_Some _ _ _ _ Href)).
    rewrite (bind_Ok _ _ _ _ _ (delete_reliable _ _ Hw)).
    eexists. split; [reflexivity|]. simpl.
    split; [apply lookup_delete_eq|].
    split; [intros ref' Hne; by apply lookup_delete_ne|].
    set (w' := set_db _ _).
    assert (reliable w') as Hw' by (by apply reliable_answered).
    destruct (orderBy_desc_reliable "bookings" "createdAt" w' Hw')
      as (snapshot & Hq & Hin).
    exists snapshot. unfold getAllBookings, try_catch.
    rewrite (bind_Ok _ _ _ _ _ Hq). eexists. split; [reflexivity|].
    intros id data [Hdoc _]%Hin. subst w'. simpl in Hdoc.
    by apply lookup_delete_Some in Hdoc as [Hne Hdoc].
Qed.

Lemma deleteBooking_removes_record_only_witness :
  Firestore.doc_ref "bookings" (VStr "b1") = Some ("bookings", ["b1"])
  ∧ reliable one_booking
  ∧ ∃ w',
      deleteBooking (VStr "b1") one_booking = (Ok success, w')
      ∧ db w' !! ("bookings", ["b1"]) = None
      ∧ (booked "10:00" <$> db w' !! ("availability", ["2024-06-01"]))
        = Some (VNum 3).
Proof.
  assert (reliable one_booking) as Hw by constructor.
  destruct (deleteBooking_removes_record_only (VStr "b1") one_booking)
    as [Hframe Hdel].
  destruct (Hdel ("bookings", ["b1"]) eq_refl Hw) as (w' & Hrun & Hgone & _).
  split; [reflexivity|]. split; [exact Hw|].
  exists w'. split; [exact Hrun|]. split; [exact Hgone|].
  specialize (Hframe ["2024-06-01"]). rewrite Hrun in Hframe. simpl in Hframe.
  rewrite Hframe. vm_compute. reflexivity.
Defined.

(** ** Administrators *)

(** C8. [isAdmin()] returns a boolean, not an envelope. Without a session it
    returns false, without asking the store. When the store answers the
    lookup, it returns true exactly when there is a session and the email of
    the session has a record in the admins collection; it changes neither the
    documents nor the session. *)
Theorem isAdmin_boolean (w : world) :
  (currentUser w = None → isAdmin w = (Ok (VBool false), w))
  ∧ (reliable w →
     ∃ b w',
       isAdmin w = (Ok (VBool b), w')
       ∧ (b = true ↔
            ∃ email, currentUser w = Some email ∧ admin_record w email)
       ∧ db w' = db w ∧ currentUser w' = currentUser w).
Proof.
  split; [apply isAdmin_no_session|].
  intros Hw. unfold isAdmin.
  rewrite (bind_Ok _ _ w (currentUser w) w) by reflexivity.
  destruct (currentUser w) as [email|] eqn:Huser.
  - destruct (admins_lookup w email Hw) as (adminDoc & Hq & Hrec).
    rewrite (bind_Ok _ _ _ _ _ Hq). eexists _, _. split; [reflexivity|].
    split; [|done]. rewrite negb_true_iff, bool_decide_eq_false, Hrec.
    split; [eauto | by intros (? & [= <-] & ?)].
  - exists false, w. split; [reflexivity|]. split; [|done].
    split; [done | by intros (? & ? & _)].
Qed.

Lemma isAdmin_boolean_witness :
  reliable desk
  ∧ ∃ b w',
      isAdmin desk = (Ok (VBool b), w')
      ∧ (b = true ↔
           ∃ email, currentUser desk = Some email ∧ admin_record desk email)
      ∧ db w' = db desk ∧ currentUser w' = currentUser desk.
Proof.
  assert (reliable desk) as Hw by constructor.
  exact (conj Hw (proj2 (isAdmin_boolean desk) Hw)).
Defined.

(** The owner is signed in at the desk and has a record. *)
Example isAdmin_owner : (isAdmin desk).1 = Ok (VBool true).
Proof. vm_compute. reflexivity. Qed.

(** C4. When the identity provider accepts the credentials, the email has no
    record in the admins collection and the store answers,
    [adminLogin(email, password)] returns the failure envelope with the
    error "Not an admin user" and leaves no session: [isAdmin()] then
    returns false. *)
Theorem adminLogin_rejects_non_admin (w : world) (email password : string) :
  reliable w →
  accounts w !! email = Some password →
  ¬ admin_record w email →
  ∃ w',
    adminLogin email password w
    = (Ok (VObj {[ "success" := VBool false;
                   "error" := VStr "Not an admin user" ]}), w')
    ∧ currentUser w' = None
    ∧ isAdmin w' = (Ok (VBool false), w').
Proof.
  intros Hw Hacc Hnot. unfold adminLogin, try_catch.
  rewrite (bind_Ok _ _ _ _ _ (signIn_reliable _ _ _ Hw Hacc)).
  set (w1 := set_currentUser (Some email) (answered w)).
  assert (reliable w1) as Hw1 by (by apply reliable_answered).
  destruct (admins_lookup w1 email Hw1) as (adminDoc & Hq & Hrec).
  rewrite (bind_Ok _ _ _ _ _ Hq).
  destruct adminDoc as [|x rest].
  - rewrite (bind_Ok _ _ _ _ _ (signOut_reliable _ (reliable_answered _ Hw1))).
    eexists. split; [reflexivity|]. split; [reflexivity|].
    by apply isAdmin_no_session.
  - exfalso. apply Hnot. destruct Hrec as [Hrec _].
    destruct Hrec as (id & data & ? & ?); [done|]. by exists id, data.
Qed.

Lemma adminLogin_rejects_non_admin_witness :
  reliable desk
  ∧ accounts desk !! "guest@happyville.test" = Some "pass"
  ∧ ¬ admin_record desk "guest@happyville.test"
  ∧ ∃ w',
      adminLogin "guest@happyville.test" "pass" desk
      = (Ok (VObj {[ "success" := VBool false;
                     "error" := VStr "Not an admin user" ]}), w')
      ∧ currentUser w' = None
      ∧ isAdmin w' = (Ok (VBool false), w').
Proof.
  assert (reliable desk) as Hw by constructor.
  assert (accounts desk !! "guest@happyville.test" = Some "pass") as Hacc
    by reflexivity.
  assert (¬ admin_record desk "guest@happyville.test") as Hnot.
  { intros (id & data & Hdoc & Hemail). simpl in Hdoc.
    apply lookup_singleton_Some in Hdoc as [_ <-].
    by apply lookup_singleton_Some in Hemail as [_ ?]. }
  exact (conj Hw (conj Hacc (conj Hnot
           (adminLogin_rejects_non_admin desk _ _ Hw Hacc Hnot)))).
Defined.

(** * Further lemmas *)

(** ** Identifiers given by the store *)

Lemma search_is_pretty (xs : list string) :
  ∀ (n : nat)
    (acc : Acc (λ n1 n2 : nat, (n2 < n1)%nat ∧ pretty (n1 - 1)%nat ∈ xs) n),
    ∃ m : nat,
      Fix_F (λ _, string) (search_infinite_go pretty xs) acc = pretty m.
Proof.
  fix FIX 2. intros n [acc]. simpl.
  unfold search_infinite_go at 1. destruct (decide _); eauto.
Qed.

Lemma fresh_is_pretty (X : gset string) : ∃ n : nat, fresh X = pretty n.
Proof. apply search_is_pretty. Qed.

Lemma pretty_N_char_no_slash x : Ascii.eqb (pretty_N_char x) "/"%char = false.
Proof. unfold pretty_N_char. by repeat case_match. Qed.

Lemma pretty_N_go_no_slash x : ∀ s,
  occurs "/"%char s = false → occurs "/"%char (pretty_N_go x s) = false.
Proof.
  induction (N.lt_wf_0 x) as [x _ IH]. intros s Hs.
  destruct (decide (0 < x)%N) as [Hx|Hx].
  - rewrite pretty_N_go_step by done. apply IH.
    + by apply N.div_lt.
    + simpl. by rewrite pretty_N_char_no_slash.
  - assert (x = 0%N) as -> by lia. by rewrite pretty_N_go_0.
Qed.

Lemma pretty_nat_no_slash (n : nat) : occurs "/"%char (pretty n) = false.
Proof.
  unfold pretty, pretty_nat, pretty, pretty_N.
  case_decide; [done|]. by apply pretty_N_go_no_slash.
Qed.

Lemma fresh_id_plain coll coll' d :
  Firestore.doc_ref coll'
    (VStr (fresh ({[ EmptyString ]} ∪ Firestore.ids coll d)))
  = Some (coll', [fresh ({[ EmptyString ]} ∪ Firestore.ids coll d)]).
Proof.
  apply doc_ref_plain.
  - intros Heq. apply (is_fresh ({[ EmptyString ]} ∪ Firestore.ids coll d)).
    rewrite Heq. set_solver.
  - destruct (fresh_is_pretty ({[ EmptyString ]} ∪ Firestore.ids coll d)) as [n ->].
    apply pretty_nat_no_slash.
Qed.

(** ** Relations that the methods keep *)

#[global] Instance same_documents_ambient : Ambient same_documents.
Proof.
  split; [split|by intros w|by intros w].
  - by intros w.
  - intros w1 w2 w3. unfold same_documents. congruence.
Qed.

#[global] Instance same_session_ambient : Ambient same_session.
Proof.
  split; [split|by (intros w; split)|by (intros w; split)].
  - by intros w.
  - intros w1 w2 w3 [? ?] [? ?]. split; congruence.
Qed.

#[global] Instance writes_only_ambient colls : Ambient (writes_only colls).
Proof.
  split; [split|by intros w ref|by intros w ref].
  - by intros w ref.
  - intros w1 w2 w3 H1 H2 ref Href. by rewrite H2, H1.
Qed.

#[global] Instance stays_reliable_ambient : Ambient stays_reliable.
Proof.
  split; [split| |by intros w ?].
  - by intros w ?.
  - intros w1 w2 w3 H1 H2 ?. by apply H2, H1.
  - intros w ?. by apply reliable_answered.
Qed.

Section keeps.
Context (R : relation world) `{!Ambient R}.

Lemma keeps_ret {A} (a : A) : keeps R (mret a).
Proof. intros w. simpl. reflexivity. Qed.

Lemma keeps_throw {A} e : keeps R (@throw A e).
Proof. intros w. simpl. reflexivity. Qed.

Lemma keeps_read {A} (f : world → A) : keeps R (read f).
Proof. intros w. simpl. reflexivity. Qed.

Lemma keeps_write f : (∀ w, R w (f w)) → keeps R (write f).
Proof. intros H w. apply H. Qed.

Lemma keeps_bind_post {A B} (Q : A → Prop) (m : M A) (f : A → M B) :
  (∀ w a w', m w = (Ok a, w') → Q a) →
  keeps R m → (∀ a, Q a → keeps R (f a)) → keeps R (m ≫= f).
Proof.
  intros HQ Hm Hf w. unfold mbind, M_bind. specialize (Hm w).
  destruct (m w) as [[a|e] w1] eqn:Hmw; simpl in *; [|done].
  etrans; [exact Hm|]. by eapply Hf, HQ.
Qed.

Lemma keeps_bind {A B} (m : M A) (f : A → M B) :
  keeps R m → (∀ a, keeps R (f a)) → keeps R (m ≫= f).
Proof. intros Hm Hf. apply (keeps_bind_post (λ _, True)); auto. Qed.

Lemma keeps_try_catch {A} (body : M A) handler :
  keeps R body → (∀ e, keeps R (handler e)) → keeps R (try_catch body handler).
Proof.
  intros Hb Hh w. unfold try_catch. specialize (Hb w).
  destruct (body w) as [[a|e] w1]; simpl in *; [done|].
  etrans; [exact Hb|]. apply Hh.
Qed.

Lemma keeps_remote : keeps R remote.
Proof.
  intros w. unfold remote.
  destruct (head (faults w)) as [[msg|]|]; apply ambient_answered.
Qed.

Lemma keeps_new_Date : keeps R new_Date.
Proof. intros w. apply ambient_ticked. Qed.

Lemma keeps_host_string v : keeps R (host_string v).
Proof. intros w. simpl. reflexivity. Qed.

Lemma keeps_host_add a b : keeps R (host_add a b).
Proof. intros w. simpl. reflexivity. Qed.

Lemma keeps_doc coll v : keeps R (Firestore.doc coll v).
Proof.
  unfold Firestore.doc. destruct (Firestore.doc_ref coll v);
    [apply keeps_ret | apply keeps_throw].
Qed.

Lemma keeps_increment n : keeps R (Firestore.increment n).
Proof. destruct n; try apply keeps_throw. apply keeps_ret. Qed.

Lemma keeps_get ref : keeps R (Firestore.get ref).
Proof. apply keeps_bind; [apply keeps_remote | intros; apply keeps_read]. Qed.

Lemma keeps_where_eq coll field v : keeps R (Firestore.where_eq coll field v).
Proof.
  unfold Firestore.where_eq. destruct (Firestore.storable v); [|apply keeps_throw].
  apply keeps_bind; [apply keeps_remote | intros; apply keeps_read].
Qed.

Lemma keeps_orderBy_desc coll field : keeps R (Firestore.orderBy_desc coll field).
Proof. apply keeps_bind; [apply keeps_remote | intros; apply keeps_read]. Qed.

Lemma keeps_get_all coll : keeps R (Firestore.get_all coll).
Proof. apply keeps_bind; [apply keeps_remote | intros; apply keeps_read]. Qed.

Lemma keeps_set ref data :
  (∀ w, R w (set_db (<[ref := data]> (db w)) w)) → keeps R (Firestore.set ref data).
Proof.
  intros H. unfold Firestore.set.
  destruct (Firestore.storable (VObj data)); [|apply keeps_throw].
  apply keeps_bind; [apply keeps_remote | intros; by apply keeps_write].
Qed.

Lemma keeps_update ref updates :
  (∀ w data, R w (set_db (<[ref := data]> (db w)) w)) →
  keeps R (Firestore.update ref updates).
Proof.
  intros H. unfold Firestore.update.
  destruct (mapM _ _); [|apply keeps_throw].
  apply keeps_bind; [apply keeps_remote | intros _].
  apply keeps_bind; [apply keeps_read | intros [data|]];
    [by apply keeps_write | apply keeps_throw].
Qed.

Lemma keeps_delete ref :
  (∀ w, R w (set_db (delete ref (db w)) w)) → keeps R (Firestore.delete ref).
Proof.
  intros H. apply keeps_bind; [apply keeps_remote | intros; by apply keeps_write].
Qed.

Lemma keeps_add coll data :
  (∀ w id, R w (set_db (<[(coll, [id]) := data]> (db w)) w)) →
  keeps R (Firestore.add coll data).
Proof.
  intros H. unfold Firestore.add.
  destruct (Firestore.storable (VObj data)); [|apply keeps_throw].
  apply keeps_bind; [apply keeps_remote | intros _].
  apply keeps_bind; [apply keeps_read | intros id].
  apply keeps_bind; [by apply keeps_write | intros; apply keeps_ret].
Qed.

Lemma keeps_signIn email password :
  (∀ w u, R w (set_currentUser u w)) →
  keeps R (Auth.signInWithEmailAndPassword email password).
Proof.
  intros H. apply keeps_bind; [apply keeps_remote | intros _].
  apply keeps_bind; [apply keeps_read | intros known].
  case_decide; [|apply keeps_throw].
  apply keeps_bind; [by apply keeps_write | intros; apply keeps_ret].
Qed.

Lemma keeps_signOut :
  (∀ w u, R w (set_currentUser u w)) → keeps R Auth.signOut.
Proof.
  intros H. apply keeps_bind; [apply keeps_remote | intros; by apply keeps_write].
Qed.

(** The methods that only read the store. *)
Lemma keeps_getAllBookings : keeps R getAllBookings.
Proof.
  apply keeps_try_catch; [|intros; apply keeps_ret].
  apply keeps_bind; [apply keeps_orderBy_desc | intros; apply keeps_ret].
Qed.

Lemma keeps_getBookingsByDate date : keeps R (getBookingsByDate date).
Proof.
  apply keeps_try_catch; [|intros; apply keeps_ret].
  apply keeps_bind; [apply keeps_where_eq | intros; apply keeps_ret].
Qed.

Lemma keeps_getActivities : keeps R getActivities.
Proof.
  apply keeps_try_catch; [|intros; apply keeps_ret].
  apply keeps_bind; [apply keeps_get_all | intros; apply keeps_ret].
Qed.

Lemma keeps_isAdmin : keeps R isAdmin.
Proof.
  apply keeps_bind; [apply keeps_read | intros [email|]]; [|apply keeps_ret].
  apply keeps_bind; [apply keeps_where_eq | intros; apply keeps_ret].
Qed.

Lemma keeps_adminLogin email password :
  (∀ w u, R w (set_currentUser u w)) → keeps R (adminLogin email password).
Proof.
  intros H. apply keeps_try_catch; [|intros; apply keeps_ret].
  apply keeps_bind; [by apply keeps_signIn | intros cred].
  apply keeps_bind; [apply keeps_where_eq | intros [|x l]]; [|apply keeps_ret].
  apply keeps_bind; [by apply keeps_signOut | intros; apply keeps_ret].
Qed.

Lemma keeps_adminLogout :
  (∀ w u, R w (set_currentUser u w)) → keeps R adminLogout.
Proof.
  intros H. apply keeps_try_catch; [|intros; apply keeps_ret].
  apply keeps_bind; [by apply keeps_signOut | intros; apply keeps_ret].
Qed.

(** The methods that write documents, given what [R] allows to write. *)
Lemma doc_collection coll v w ref w' :
  Firestore.doc coll v w = (Ok ref, w') → ref.1 = coll.
Proof.
  unfold Firestore.doc. destruct (Firestore.doc_ref coll v) eqn:Href; [|done].
  intros [= <- _]. by eapply doc_ref_collection.
Qed.

Lemma keeps_getAvailability date :
  (∀ w (ref : docref) data,
     ref.1 = "availability" → R w (set_db (<[ref := data]> (db w)) w)) →
  keeps R (getAvailability date).
Proof.
  intros H. apply keeps_try_catch; [|intros; apply keeps_ret].
  apply keeps_bind; [apply keeps_doc | intros ref].
  apply keeps_bind; [apply keeps_get | intros [data|]]; [apply keeps_ret|].
  apply (keeps_bind_post (λ ref, ref.1 = "availability"));
    [apply doc_collection | apply keeps_doc | intros ref' Href'].
  apply keeps_bind; [apply keeps_set; auto | intros; apply keeps_ret].
Qed.

Lemma keeps_updateAvailability date time change :
  (∀ w (ref : docref) data,
     ref.1 = "availability" → R w (set_db (<[ref := data]> (db w)) w)) →
  keeps R (updateAvailability date time change).
Proof.
  intros H. apply keeps_try_catch; [|intros; apply keeps_ret].
  apply (keeps_bind_post (λ ref, ref.1 = "availability"));
    [apply doc_collection | apply keeps_doc | intros ref Href].
  apply keeps_bind; [apply keeps_get | intros doc].
  apply keeps_bind.
  { destruct doc; [apply keeps_ret | apply keeps_set; auto]. }
  intros _. apply keeps_bind; [apply keeps_host_string | intros key].
  apply keeps_bind; [apply keeps_increment | intros u].
  apply keeps_bind; [apply keeps_update; auto | intros; apply keeps_ret].
Qed.

Lemma keeps_createBooking bookingData :
  (∀ w (ref : docref) data,
     ref.1 = "availability" ∨ ref.1 = "bookings" →
     R w (set_db (<[ref := data]> (db w)) w)) →
  keeps R (createBooking bookingData).
Proof.
  intros H. apply keeps_try_catch; [|intros; apply keeps_ret].
  apply keeps_bind; [apply keeps_new_Date | intros createdAt].
  apply keeps_bind; [apply keeps_new_Date | intros updatedAt].
  apply keeps_bind; [apply keeps_add; auto | intros id].
  apply keeps_bind; [apply keeps_host_add | intros change].
  apply keeps_bind; [apply keeps_updateAvailability; auto | intros; apply keeps_ret].
Qed.

Lemma keeps_updateBooking bookingId updates :
  (∀ w (ref : docref) data,
     ref.1 = "bookings" → R w (set_db (<[ref := data]> (db w)) w)) →
  keeps R (updateBooking bookingId updates).
Proof.
  intros H. apply keeps_try_catch; [|intros; apply keeps_ret].
  apply (keeps_bind_post (λ ref, ref.1 = "bookings"));
    [apply doc_collection | apply keeps_doc | intros ref Href].
  apply keeps_bind; [apply keeps_new_Date | intros updatedAt].
  apply keeps_bind; [apply keeps_update; auto | intros; apply keeps_ret].
Qed.

Lemma keeps_deleteBooking bookingId :
  (∀ w (ref : docref),
     ref.1 = "bookings" → R w (set_db (delete ref (db w)) w)) →
  keeps R (deleteBooking bookingId).
Proof.
  intros H. apply keeps_try_catch; [|intros; apply keeps_ret].
  apply (keeps_bind_post (λ ref, ref.1 = "bookings"));
    [apply doc_collection | apply keeps_doc | intros ref Href].
  apply keeps_bind; [apply keeps_delete; auto | intros; apply keeps_ret].
Qed.

End keeps.

(** * Further properties of the service *)

(** ** Stored data *)

Lemma add_reliable coll data w :
  reliable w → Firestore.storable (VObj data) = true →
  ∃ id,
    Firestore.add coll data w
    = (Ok id, set_db (<[(coll, [id]) := data]> (db w)) (answered w))
    ∧ db w !! (coll, [id]) = None
    ∧ Firestore.doc_ref coll (VStr id) = Some (coll, [id]).
Proof.
  intros Hw Hs. unfold Firestore.add. rewrite Hs.
  rewrite (bind_Ok _ _ _ _ _ (remote_reliable w Hw)).
  eexists. split; [reflexivity|]. split; [apply fresh_id_unused|].
  apply fresh_id_plain.
Qed.

Lemma get_at_set_at_diverge p : ∀ q f v,
  diverge p q →
  Firestore.get_at q (Firestore.set_at p f v) = Firestore.get_at q v.
Proof.
  induction p as [|k p IH]; intros [|k' q] f v Hpq; try done.
  set (m := match v with VObj m => m | _ => ∅ end).
  assert (Firestore.get_at (k' :: q) v = Firestore.get_at q (prop m k')) as ->.
  { subst m. destruct v; simpl; try done; unfold prop; rewrite lookup_empty;
      simpl; by rewrite get_at_undefined. }
  change (Firestore.set_at (k :: p) f v)
    with (VObj (<[k := Firestore.set_at p f (prop m k)]> m)).
  change (Firestore.get_at (k' :: q) (VObj ?x))
    with (Firestore.get_at q (prop x k')).
  unfold prop at 1. destruct (decide (k = k')) as [<-|Hne].
  - rewrite lookup_insert_eq. simpl. destruct Hpq as [?|Hpq]; [done|]. by apply IH.
  - by rewrite lookup_insert_ne.
Qed.

(** X3. When the store answers, [updateAvailability(date, t, n)] returns the
    success envelope and changes one counter and nothing else: [booked] of
    slot [t] is the former value, or that of the default day when the date
    had no document, incremented by [n]. The other slots, the [total] of
    slot [t], the other fields of the document and the other documents are
    as before. *)
Theorem updateAvailability_changes_one_counter
    (w : world) (date : value) (t : string) (n : number) (ref : docref) :
  reliable w →
  Firestore.doc_ref "availability" date = Some ref →
  slot_key t = true →
  ∃ w' data',
    updateAvailability date (VStr t) (VNum n) w = (Ok success, w')
    ∧ db w' !! ref = Some data'
    ∧ booked t data'
      = Firestore.incremented
          (booked t (default (default_day date) (db w !! ref))) n
    ∧ (∀ t', t' ≠ t →
         Firestore.get_at ["slots"; t'] (VObj data')
         = Firestore.get_at ["slots"; t']
             (VObj (default (default_day date) (db w !! ref))))
    ∧ Firestore.get_at ["slots"; t; "total"] (VObj data')
      = Firestore.get_at ["slots"; t; "total"]
          (VObj (default (default_day date) (db w !! ref)))
    ∧ (∀ k, k ≠ "slots" →
         data' !! k = default (default_day date) (db w !! ref) !! k)
    ∧ (∀ ref', ref' ≠ ref → db w' !! ref' = db w !! ref').
Proof.
  intros Hw Href Ht.
  destruct (updateAvailability_reliable w date (VStr t) n ref
              ["slots"; t; "booked"] Hw Href (field_path_slot _ Ht))
    as (w' & Hrun & Hdb & _).
  exists w'. eexists. split; [exact Hrun|]. rewrite Hdb.
  split; [apply lookup_insert_eq|].
  split; [unfold booked; by rewrite get_at_set_field|].
  split; [|split; [|split]].
  - intros t' Hne.
    change (VObj (Firestore.set_field ["slots"; t; "booked"] ?f ?d))
      with (Firestore.set_at ["slots"; t; "booked"] f (VObj d)).
    apply get_at_set_at_diverge. simpl. auto.
  - change (VObj (Firestore.set_field ["slots"; t; "booked"] ?f ?d))
      with (Firestore.set_at ["slots"; t; "booked"] f (VObj d)).
    apply get_at_set_at_diverge. simpl. right. right. by left.
  - intros k Hk. rewrite set_field_cons. by rewrite lookup_insert_ne.
  - intros ref' Hne. by rewrite lookup_insert_ne.
Qed.

Lemma updateAvailability_changes_one_counter_witness :
  reliable one_booking
  ∧ Firestore.doc_ref "availability" (VStr "2024-06-01")
    = Some ("availability", ["2024-06-01"])
  ∧ slot_key "10:00" = true
  ∧ ∃ w' data',
      updateAvailability (VStr "2024-06-01") (VStr "10:00") (VNum 2) one_booking
      = (Ok success, w')
      ∧ db w' !! ("availability", ["2024-06-01"]) = Some data'
      ∧ booked "10:00" data'
        = Firestore.incremented
            (booked "10:00"
               (default (default_day (VStr "2024-06-01"))
                  (db one_booking !! ("availability", ["2024-06-01"])))) 2
      ∧ (∀ t', t' ≠ "10:00" →
           Firestore.get_at ["slots"; t'] (VObj data')
           = Firestore.get_at ["slots"; t']
               (VObj (default (default_day (VStr "2024-06-01"))
                        (db one_booking !! ("availability", ["2024-06-01"])))))
      ∧ Firestore.get_at ["slots"; "10:00"; "total"] (VObj data')
        = Firestore.get_at ["slots"; "10:00"; "total"]
            (VObj (default (default_day (VStr "2024-06-01"))
                     (db one_booking !! ("availability", ["2024-06-01"]))))
      ∧ (∀ k, k ≠ "slots" →
           data' !! k
           = default (default_day (VStr "2024-06-01"))
               (db one_booking !! ("availability", ["2024-06-01"])) !! k)
      ∧ (∀ ref', ref' ≠ ("availability", ["2024-06-01"]) →
           db w' !! ref' = db one_booking !! ref').
Proof.
  assert (reliable one_booking) as Hw by constructor.
  exact (conj Hw (conj eq_refl (conj eq_refl
           (updateAvailability_changes_one_counter one_booking
              (VStr "2024-06-01") "10:00" 2 ("availability", ["2024-06-01"])
              Hw eq_refl eq_refl)))).
Defined.

(** X4. Two calls of [updateAvailability] one after the other add their
    changes to the counter: from [c], after [a] and then [b] the counter is
    [c + a + b], whatever the signs and however large the sum, and the
    [total] of the slot is never touched: the method checks no capacity. *)
Theorem updateAvailability_adds_up
    (w : world) (date : value) (t : string) (a b c : Z) (ref : docref) :
  reliable w →
  Firestore.doc_ref "availability" date = Some ref →
  slot_key t = true →
  booked t (default (default_day date) (db w !! ref)) = VNum c →
  ∃ w1 w2 data1 data2,
    updateAvailability date (VStr t) (VNum a) w = (Ok success, w1)
    ∧ db w1 !! ref = Some data1 ∧ booked t data1 = VNum (c + a)
    ∧ updateAvailability date (VStr t) (VNum b) w1 = (Ok success, w2)
    ∧ db w2 !! ref = Some data2 ∧ booked t data2 = VNum (c + a + b)
    ∧ Firestore.get_at ["slots"; t; "total"] (VObj data2)
      = Firestore.get_at ["slots"; t; "total"]
          (VObj (default (default_day date) (db w !! ref))).
Proof.
  intros Hw Href Ht Hc.
  destruct (updateAvailability_reliable w date (VStr t) a ref
              ["slots"; t; "booked"] Hw Href (field_path_slot _ Ht))
    as (w1 & Hrun1 & Hdb1 & Hw1).
  destruct (updateAvailability_reliable w1 date (VStr t) b ref
              ["slots"; t; "booked"] Hw1 Href (field_path_slot _ Ht))
    as (w2 & Hrun2 & Hdb2 & _).
  rewrite Hdb1, lookup_insert_eq in Hdb2. simpl in Hdb2.
  exists w1, w2. eexists _, _. split; [exact Hrun1|]. rewrite Hdb1, Hdb2.
  split; [apply lookup_insert_eq|].
  split; [unfold booked in *; by rewrite get_at_set_field, Hc|].
  split; [exact Hrun2|]. split; [apply lookup_insert_eq|].
  split; [unfold booked in *; by rewrite !get_at_set_field, Hc|].
  change (VObj (Firestore.set_field ["slots"; t; "booked"] ?f ?d))
    with (Firestore.set_at ["slots"; t; "booked"] f (VObj d)).
  rewrite get_at_set_at_diverge by (simpl; right; right; by left).
  change (VObj (Firestore.set_field ["slots"; t; "booked"] ?f ?d))
    with (Firestore.set_at ["slots"; t; "booked"] f (VObj d)).
  by rewrite get_at_set_at_diverge by (simpl; right; right; by left).
Qed.

Lemma updateAvailability_adds_up_witness :
  reliable one_booking
  ∧ Firestore.doc_ref "availability" (VStr "2024-06-01")
    = Some ("availability", ["2024-06-01"])
  ∧ slot_key "10:00" = true
  ∧ booked "10:00"
      (default (default_day (VStr "2024-06-01"))
         (db one_booking !! ("availability", ["2024-06-01"]))) = VNum 3
  ∧ ∃ w1 w2 data1 data2,
      updateAvailability (VStr "2024-06-01") (VStr "10:00") (VNum 200)
        one_booking = (Ok success, w1)
      ∧ db w1 !! ("availability", ["2024-06-01"]) = Some data1
      ∧ booked "10:00" data1 = VNum (3 + 200)
      ∧ updateAvailability (VStr "2024-06-01") (VStr "10:00") (VNum (-1)) w1
        = (Ok success, w2)
      ∧ db w2 !! ("availability", ["2024-06-01"]) = Some data2
      ∧ booked "10:00" data2 = VNum (3 + 200 + -1)
      ∧ Firestore.get_at ["slots"; "10:00"; "total"] (VObj data2)
        = Firestore.get_at ["slots"; "10:00"; "total"]
            (VObj (default (default_day (VStr "2024-06-01"))
                     (db one_booking !! ("availability", ["2024-06-01"])))).
Proof.
  assert (reliable one_booking) as Hw by constructor.
  assert (booked "10:00"
            (default (default_day (VStr "2024-06-01"))
               (db one_booking !! ("availability", ["2024-06-01"]))) = VNum 3)
    as Hc by (vm_compute; reflexivity).
  exact (conj Hw (conj eq_refl (conj eq_refl (conj Hc
           (updateAvailability_adds_up one_booking (VStr "2024-06-01") "10:00"
              200 (-1) 3 ("availability", ["2024-06-01"])
              Hw eq_refl eq_refl Hc))))).
Defined.
(** ** Availability *)

(** [getAvailability] reads an existing document and writes nothing. *)
Lemma getAvailability_existing w date ref data :
  reliable w →
  Firestore.doc_ref "availability" date = Some ref →
  db w !! ref = Some data →
  getAvailability date w
  = (Ok (VObj {[ "success" := VBool true;
                 "slots" := or_else (prop data "slots") (VObj ∅) ]}),
     answered w).
Proof.
  intros Hw Href Hdoc. unfold getAvailability, try_catch.
  rewrite (bind_Ok _ _ _ _ _ (doc_Some _ _ _ _ Href)).
  rewrite (bind_Ok _ _ _ _ _ (get_reliable _ _ Hw)). by rewrite Hdoc.
Qed.

Lemma getAvailability_missing w date ref :
  reliable w →
  Firestore.doc_ref "availability" date = Some ref →
  db w !! ref = None →
  getAvailability date w
  = (Ok (VObj {[ "success" := VBool true;
                 "slots" := VObj generateDefaultSlots ]}),
     set_db (<[ref := default_day date]> (db w)) (answered (answered w))).
Proof.
  intros Hw Href Hnone. unfold getAvailability, try_catch.
  rewrite (bind_Ok _ _ _ _ _ (doc_Some _ _ _ _ Href)).
  rewrite (bind_Ok _ _ _ _ _ (get_reliable _ _ Hw)). rewrite Hnone.
  rewrite (bind_Ok _ _ _ _ _ (doc_Some _ _ _ _ Href)).
  by rewrite (bind_Ok _ _ _ _ _
                (set_reliable _ _ _ (reliable_answered _ Hw)
                   (storable_default_day _ _ _ Href))).
Qed.

(** X1. When the store answers, [getAvailability(date)] called twice returns
    the same envelope twice, and the second call writes nothing. On a date
    that has a document the first call writes nothing either and returns the
    stored slots, or the empty object when the document has none. *)
Theorem getAvailability_twice (w : world) (date : value) (ref : docref) :
  reliable w →
  Firestore.doc_ref "availability" date = Some ref →
  ∃ r w1 w2,
    getAvailability date w = (Ok r, w1)
    ∧ getAvailability date w1 = (Ok r, w2)
    ∧ db w2 = db w1
    ∧ (∀ data, db w !! ref = Some data →
         db w1 = db w
         ∧ r = VObj {[ "success" := VBool true;
                       "slots" := or_else (prop data "slots") (VObj ∅) ]}).
Proof.
  intros Hw Href. destruct (db w !! ref) as [data|] eqn:Hdoc.
  - rewrite (getAvailability_existing w date ref data Hw Href Hdoc).
    eexists _, _, _. split; [reflexivity|].
    rewrite (getAvailability_existing (answered w) date ref data
               (reliable_answered _ Hw) Href Hdoc).
    split; [reflexivity|]. split; [done|]. by intros ? [= <-].
  - rewrite (getAvailability_missing w date ref Hw Href Hdoc).
    set (w1 := set_db _ _).
    assert (reliable w1) as Hw1 by (by do 2 apply reliable_answered in Hw).
    eexists _, _, _. split; [reflexivity|].
    rewrite (getAvailability_existing w1 date ref (default_day date) Hw1 Href)
      by apply lookup_insert_eq.
    split; [reflexivity|]. split; [done|]. done.
Qed.

Lemma getAvailability_twice_witness :
  reliable one_booking
  ∧ Firestore.doc_ref "availability" (VStr "2024-06-01")
    = Some ("availability", ["2024-06-01"])
  ∧ ∃ r w1 w2,
      getAvailability (VStr "2024-06-01") one_booking = (Ok r, w1)
      ∧ getAvailability (VStr "2024-06-01") w1 = (Ok r, w2)
      ∧ db w2 = db w1
      ∧ (∀ data,
           db one_booking !! ("availability", ["2024-06-01"]) = Some data →
           db w1 = db one_booking
           ∧ r = VObj {[ "success" := VBool true;
                         "slots" := or_else (prop data "slots") (VObj ∅) ]}).
Proof.
  assert (reliable one_booking) as Hw by constructor.
  exact (conj Hw (conj eq_refl
           (getAvailability_twice one_booking (VStr "2024-06-01")
              ("availability", ["2024-06-01"]) Hw eq_refl))).
Defined.

Lemma default_slot_keys t :
  is_Some (generateDefaultSlots !! t) →
  t ∈ ["09:00"; "10:00"; "11:00"; "12:00"; "13:00"; "14:00"; "15:00";
       "16:00"; "17:00"; "18:00"].
Proof.
  rewrite generateDefaultSlots_entries. intros [x Hx].
  apply elem_of_list_to_map_2 in Hx.
  apply list_elem_of_fmap in Hx as (k & [= -> _] & Hk). exact Hk.
Qed.

Lemma default_slot_lookup t :
  is_Some (generateDefaultSlots !! t) →
  generateDefaultSlots !! t
  = Some (VObj {[ "booked" := VNum 0; "total" := VNum 100 ]}).
Proof.
  intros [x Hx]. rewrite Hx. rewrite generateDefaultSlots_entries in Hx.
  apply elem_of_list_to_map_2 in Hx.
  by apply list_elem_of_fmap in Hx as (k & [= -> ->] & _).
Qed.

Lemma default_slot_key t :
  is_Some (generateDefaultSlots !! t) → slot_key t = true.
Proof.
  intros Ht%default_slot_keys.
  repeat (apply elem_of_cons in Ht as [->|Ht]);
    [reflexivity..|by apply not_elem_of_nil in Ht].
Qed.

(** The first increment of a default slot. *)
Lemma set_field_default_slot date t (n : Z) :
  is_Some (generateDefaultSlots !! t) →
  Firestore.set_field ["slots"; t; "booked"]
    (λ current, Firestore.incremented current n) (default_day date)
  = <["slots" := VObj (<[t := VObj {[ "booked" := VNum n;
                                      "total" := VNum 100 ]}]>
                         generateDefaultSlots)]> (default_day date).
Proof.
  intros Hslot%default_slot_lookup. rewrite set_field_cons.
  assert (prop (default_day date) "slots" = VObj generateDefaultSlots) as ->
    by reflexivity.
  change (Firestore.set_at [t; "booked"] ?f (VObj ?g))
    with (VObj (<[t := Firestore.set_at ["booked"] f (prop g t)]> g)).
  unfold prop at 1. rewrite Hslot.
  change (Firestore.set_at ["booked"] ?f (default VUndefined (Some (VObj ?g))))
    with (VObj (<["booked" := f (prop g "booked")]> g)).
  assert (prop {[ "booked" := VNum 0; "total" := VNum 100 ]} "booked" = VNum 0)
    as -> by reflexivity.
  change (Firestore.incremented (VNum 0) n) with (VNum n).
  by rewrite insert_insert_eq.
Qed.

(** X2. On a date that has no availability document yet, and when the store
    answers, [updateAvailability(date, t, n)] for any of the ten default
    slots [t] and any whole number [n], followed by [getAvailability(date)],
    returns the default slots with [booked] of slot [t] set to [n] and its
    [total] still 100. *)
Theorem updateAvailability_default_slot
    (w : world) (date : value) (t : string) (n : Z) (ref : docref) :
  Firestore.doc_ref "availability" date = Some ref →
  db w !! ref = None →
  reliable w →
  is_Some (generateDefaultSlots !! t) →
  ∃ w1 w2,
    updateAvailability date (VStr t) (VNum n) w = (Ok success, w1)
    ∧ getAvailability date w1
      = (Ok (VObj {[ "success" := VBool true;
                     "slots" :=
                       VObj (<[t := VObj {[ "booked" := VNum n;
                                            "total" := VNum 100 ]}]>
                               generateDefaultSlots) ]}), w2).
Proof.
  intros Href Hnone Hw Ht.
  destruct (updateAvailability_reliable w date (VStr t) n ref
              ["slots"; t; "booked"] Hw Href
              (field_path_slot _ (default_slot_key t Ht)))
    as (w1 & Hrun & Hdb & Hw1).
  rewrite Hnone in Hdb. simpl in Hdb.
  rewrite (set_field_default_slot date t n Ht) in Hdb.
  exists w1. eexists. split; [exact Hrun|].
  rewrite (getAvailability_existing w1 date ref _ Hw1 Href)
    by (rewrite Hdb; apply lookup_insert_eq).
  unfold prop. by rewrite lookup_insert_eq.
Qed.

Lemma updateAvailability_default_slot_witness :
  Firestore.doc_ref "availability" (VStr "2024-06-01")
  = Some ("availability", ["2024-06-01"])
  ∧ db day_one !! ("availability", ["2024-06-01"]) = None
  ∧ reliable day_one
  ∧ is_Some (generateDefaultSlots !! "14:00")
  ∧ ∃ w1 w2,
      updateAvailability (VStr "2024-06-01") (VStr "14:00") (VNum 4) day_one
      = (Ok success, w1)
      ∧ getAvailability (VStr "2024-06-01") w1
        = (Ok (VObj {[ "success" := VBool true;
                       "slots" :=
                         VObj (<["14:00" := VObj {[ "booked" := VNum 4;
                                                    "total" := VNum 100 ]}]>
                                 generateDefaultSlots) ]}), w2).
Proof.
  assert (reliable day_one) as Hw by constructor.
  assert (is_Some (generateDefaultSlots !! "14:00")) as Ht
    by (exists (VObj {[ "booked" := VNum 0; "total" := VNum 100 ]});
        vm_compute; reflexivity).
  exact (conj eq_refl (conj eq_refl (conj Hw (conj Ht
           (updateAvailability_default_slot day_one (VStr "2024-06-01") "14:00"
              4 ("availability", ["2024-06-01"]) eq_refl eq_refl Hw Ht))))).
Defined.

(** X11. [updateBooking] on an id that has no document returns a failure
    envelope and creates nothing, whatever the store answers: the documents
    are as before. *)
Theorem updateBooking_missing
    (w : world) (bookingId : value) (updates : obj) (ref : docref) :
  Firestore.doc_ref "bookings" bookingId = Some ref →
  db w !! ref = None →
  ∃ e w',
    updateBooking bookingId updates w = (Ok (failure e), w') ∧ db w' = db w.
Proof.
  intros Href Hnone. unfold updateBooking, try_catch.
  rewrite (bind_Ok _ _ _ _ _ (doc_Some _ _ _ _ Href)).
  rewrite (bind_Ok _ _ w (VDate (reading w)) (ticked w)) by reflexivity.
  unfold Firestore.update.
  destruct (mapM _ _) as [us|].
  - destruct (remote_cases (ticked w)) as [Hr | [msg Hr]].
    + rewrite (bind_Throw _ _ _ (Error Firestore.no_document_to_update)
                 (answered (ticked w))).
      { by eexists _, _. }
      rewrite (bind_Ok _ _ _ _ _ Hr).
      rewrite (bind_Ok _ _ _ None (answered (ticked w))) by (by rewrite <-Hnone).
      reflexivity.
    + rewrite (bind_Throw _ _ _ (Error msg) (answered (ticked w))).
      { by eexists _, _. }
      by rewrite (bind_Throw _ _ _ _ _ Hr).
  - by eexists _, _.
Qed.

Lemma updateBooking_missing_witness :
  Firestore.doc_ref "bookings" (VStr "b9") = Some ("bookings", ["b9"])
  ∧ db one_booking !! ("bookings", ["b9"]) = None
  ∧ ∃ e w',
      updateBooking (VStr "b9") confirmed_for_three one_booking
      = (Ok (failure e), w')
      ∧ db w' = db one_booking.
Proof.
  exact (conj eq_refl (conj eq_refl
           (updateBooking_missing one_booking (VStr "b9") confirmed_for_three
              ("bookings", ["b9"]) eq_refl eq_refl))).
Defined.

(** X12. When the store answers, [deleteBooking] is idempotent: a second
    call with the same id returns the success envelope again and changes
    nothing, and a call for a booking that is not there returns the success
    envelope and leaves the documents as they are. *)
Theorem deleteBooking_twice (w : world) (bookingId : value) (ref : docref) :
  Firestore.doc_ref "bookings" bookingId = Some ref →
  reliable w →
  ∃ w1 w2,
    deleteBooking bookingId w = (Ok success, w1)
    ∧ deleteBooking bookingId w1 = (Ok success, w2)
    ∧ db w2 = db w1
    ∧ (db w !! ref = None → db w1 = db w).
Proof.
  intros Href Hw. unfold deleteBooking, try_catch.
  rewrite (bind_Ok _ _ _ _ _ (doc_Some _ _ _ _ Href)).
  rewrite (bind_Ok _ _ _ _ _ (delete_reliable _ _ Hw)).
  set (w1 := set_db _ _).
  assert (reliable w1) as Hw1 by (by apply reliable_answered).
  eexists _, _. split; [reflexivity|].
  rewrite (bind_Ok _ _ _ _ _ (doc_Some _ _ _ _ Href)).
  rewrite (bind_Ok _ _ _ _ _ (delete_reliable _ _ Hw1)).
  split; [reflexivity|]. simpl. split.
  - apply delete_id, lookup_delete_eq.
  - apply delete_id.
Qed.

Lemma deleteBooking_twice_witness :
  Firestore.doc_ref "bookings" (VStr "b1") = Some ("bookings", ["b1"])
  ∧ reliable one_booking
  ∧ ∃ w1 w2,
      deleteBooking (VStr "b1") one_booking = (Ok success, w1)
      ∧ deleteBooking (VStr "b1") w1 = (Ok success, w2)
      ∧ db w2 = db w1
      ∧ (db one_booking !! ("bookings", ["b1"]) = None → db w1 = db one_booking).
Proof.
  assert (reliable one_booking) as Hw by constructor.
  exact (conj eq_refl (conj Hw
           (deleteBooking_twice one_booking (VStr "b1") ("bookings", ["b1"])
              eq_refl Hw))).
Defined.

(** ** Listings *)

Lemma NoDup_omap_inj {A B} (f : A → option B) (l : list A) :
  (∀ x y z, f x = Some z → f y = Some z → x = y) →
  NoDup l → NoDup (omap f l).
Proof.
  intros Hinj. induction 1 as [|x l Hx Hl IH]; simpl; [constructor|].
  destruct (f x) as [z|] eqn:Hfx; [|done]. constructor; [|done].
  intros (y & Hy & Hfy)%list_elem_of_omap.
  by rewrite (Hinj x y z Hfx Hfy) in Hx.
Qed.

Lemma NoDup_documents coll d : NoDup (Firestore.documents coll d).
Proof.
  apply NoDup_omap_inj; [|apply NoDup_map_to_list].
  intros [[c p] data] [[c' p'] data'] [id z] Hx Hy.
  destruct p as [|i [|? ?]]; try discriminate.
  destruct p' as [|i' [|? ?]]; try discriminate.
  destruct (String.eqb_spec c coll), (String.eqb_spec c' coll); simplify_eq.
  done.
Qed.

(** The record that a listing shows for a document: the fields of the
    data, and the document id unless the data has an id of its own. *)
Lemma with_id_fields id data :
  ∃ o, with_id (id, data) = VObj o
       ∧ o !! "id" = Some (default (VStr id) (data !! "id"))
       ∧ ∀ k, k ≠ "id" → o !! k = data !! k.
Proof.
  eexists. split; [reflexivity|]. simpl. split.
  - destruct (data !! "id") as [x|] eqn:Hid; simpl.
    + by apply lookup_union_Some_l.
    + rewrite lookup_union_r by done. apply lookup_singleton_eq.
  - intros k Hk. destruct (data !! k) as [x|] eqn:Hx.
    + by apply lookup_union_Some_l.
    + rewrite lookup_union_r by done. by apply lookup_singleton_ne.
Qed.


Lemma orderBy_desc_NoDup coll field w snapshot w' :
  Firestore.orderBy_desc coll field w = (Ok snapshot, w') → NoDup snapshot.
Proof.
  unfold Firestore.orderBy_desc.
  destruct (remote_cases w) as [Hr | [msg Hr]].
  - rewrite (bind_Ok _ _ _ _ _ Hr). unfold read. intros [= <- _].
    rewrite merge_sort_Permutation. apply NoDup_filter, NoDup_documents.
  - by rewrite (bind_Throw _ _ _ _ _ Hr).
Qed.



(** X9. When the store answers, [getAllBookings] writes nothing and returns
    the success envelope with exactly the stored bookings that have a
    [createdAt] field, each of them once, as a record with its id: a booking
    stored without [createdAt] is not listed. *)
Theorem getAllBookings_lists_dated (w : world) :
  reliable w →
  ∃ snapshot w',
    getAllBookings w
    = (Ok (VObj {[ "success" := VBool true;
                   "bookings" := VArr (with_id <$> snapshot) ]}), w')
    ∧ db w' = db w
    ∧ NoDup snapshot
    ∧ ∀ id data,
        (id, data) ∈ snapshot ↔
          db w !! ("bookings", [id]) = Some data
          ∧ is_Some (data !! "createdAt").
Proof.
  intros Hw.
  destruct (orderBy_desc_reliable "bookings" "createdAt" w Hw)
    as (snapshot & Hq & Hin).
  exists snapshot. unfold getAllBookings, try_catch.
  rewrite (bind_Ok _ _ _ _ _ Hq). eexists. split; [reflexivity|].
  split; [done|]. split; [by eapply orderBy_desc_NoDup | exact Hin].
Qed.

Lemma getAllBookings_lists_dated_witness :
  reliable one_booking
  ∧ ∃ snapshot w',
      getAllBookings one_booking
      = (Ok (VObj {[ "success" := VBool true;
                     "bookings" := VArr (with_id <$> snapshot) ]}), w')
      ∧ db w' = db one_booking
      ∧ NoDup snapshot
      ∧ ∀ id data,
          (id, data) ∈ snapshot ↔
            db one_booking !! ("bookings", [id]) = Some data
            ∧ is_Some (data !! "createdAt").
Proof.
  assert (reliable one_booking) as Hw by constructor.
  exact (conj Hw (getAllBookings_lists_dated one_booking Hw)).
Defined.

Lemma get_all_reliable coll w :
  reliable w →
  ∃ snapshot,
    Firestore.get_all coll w = (Ok snapshot, answered w)
    ∧ ∀ id data, (id, data) ∈ snapshot ↔ db w !! (coll, [id]) = Some data.
Proof.
  intros Hw. unfold Firestore.get_all.
  rewrite (bind_Ok _ _ _ _ _ (remote_reliable w Hw)).
  eexists. split; [reflexivity|]. intros id data. simpl.
  by rewrite elem_of_merge_sort, elem_of_documents.
Qed.

Lemma foldl_activities_other (l : list (string * obj)) : ∀ (acc : obj) id,
  id ∉ l.*1 →
  foldl (λ acc (doc : string * obj), <[doc.1 := VObj doc.2]> acc) acc l !! id
  = acc !! id.
Proof.
  induction l as [|[k d] l IH]; intros acc id Hid; simpl; [done|].
  rewrite fmap_cons, not_elem_of_cons in Hid. destruct Hid as [Hne Hid].
  rewrite IH by done. by rewrite lookup_insert_ne.
Qed.

Lemma foldl_activities_in (l : list (string * obj)) : ∀ (acc : obj) id data,
  (∀ i d1 d2, (i, d1) ∈ l → (i, d2) ∈ l → d1 = d2) →
  (id, data) ∈ l →
  foldl (λ acc (doc : string * obj), <[doc.1 := VObj doc.2]> acc) acc l !! id
  = Some (VObj data).
Proof.
  induction l as [|[k d] l IH]; intros acc id data Hfun Hin; simpl.
  { by apply not_elem_of_nil in Hin. }
  destruct (decide (id ∈ l.*1)) as [Hl|Hl].
  - apply list_elem_of_fmap in Hl as ([i d2] & -> & Hd2). simpl in *.
    assert (d2 = data) as ->.
    { eapply Hfun; [right; exact Hd2 | exact Hin]. }
    apply IH; [|done]. intros ? ? ? ? ?. eapply Hfun; by right.
  - rewrite foldl_activities_other by done.
    apply elem_of_cons in Hin as [[= -> ->]|Hin].
    + apply lookup_insert_eq.
    + exfalso. apply Hl. apply list_elem_of_fmap. by exists (id, data).
Qed.

(** X13. When the store answers, [getActivities] writes nothing and returns
    the success envelope with an object that has, under each id of the
    [activities] collection, the data of that document, and no other
    key. *)
Theorem getActivities_by_id (w : world) :
  reliable w →
  ∃ activities w',
    getActivities w
    = (Ok (VObj {[ "success" := VBool true;
                   "activities" := VObj activities ]}), w')
    ∧ db w' = db w
    ∧ ∀ id, activities !! id = VObj <$> db w !! ("activities", [id]).
Proof.
  intros Hw. destruct (get_all_reliable "activities" w Hw) as (snapshot & Hq & Hin).
  unfold getActivities, try_catch. rewrite (bind_Ok _ _ _ _ _ Hq).
  eexists _, _. split; [reflexivity|]. split; [done|]. intros id.
  destruct (db w !! ("activities", [id])) as [data|] eqn:Hdoc; simpl.
  - apply foldl_activities_in; [|by apply Hin].
    intros i d1 d2 H1%Hin H2%Hin. congruence.
  - rewrite foldl_activities_other; [done|].
    intros ([i data] & -> & Hd%Hin)%list_elem_of_fmap. simpl in *. congruence.
Qed.

Lemma getActivities_by_id_witness :
  reliable park
  ∧ ∃ activities w',
      getActivities park
      = (Ok (VObj {[ "success" := VBool true;
                     "activities" := VObj activities ]}), w')
      ∧ db w' = db park
      ∧ ∀ id, activities !! id = VObj <$> db park !! ("activities", [id]).
Proof.
  assert (reliable park) as Hw by constructor.
  exact (conj Hw (getActivities_by_id park Hw)).
Defined.

(** ** A booking from creation to deletion *)

Lemma updateAvailability_stays_reliable date time change w :
  reliable w → reliable (updateAvailability date time change w).2.
Proof.
  apply (keeps_updateAvailability stays_reliable). by intros ? ? ? _ ?.
Qed.

Lemma updateAvailability_other_collections date time change w (ref : docref) :
  ref.1 ≠ "availability" →
  db (updateAvailability date time change w).2 !! ref = db w !! ref.
Proof.
  intros Hne. apply (keeps_updateAvailability (writes_only ["availability"])).
  - intros w' r data Hr r' Hr'. simpl. apply lookup_insert_ne.
    intros <-. by apply Hr', list_elem_of_singleton.
  - by intros ?%list_elem_of_singleton.
Qed.

(** What [createBooking] leaves when the store answers and accepts the
    data. *)
Lemma createBooking_reliable bookingData w :
  reliable w →
  Firestore.storable (VObj bookingData) = true →
  ∃ id w1,
    createBooking bookingData w
    = (Ok (VObj {[ "success" := VBool true; "id" := VStr id ]}), w1)
    ∧ reliable w1
    ∧ db w !! ("bookings", [id]) = None
    ∧ db w1 !! ("bookings", [id])
      = Some (booking_record bookingData (reading w) (reading (ticked w)))
    ∧ Firestore.doc_ref "bookings" (VStr id) = Some ("bookings", [id])
    ∧ w1 = (updateAvailability (prop bookingData "date")
              (prop bookingData "time")
              (JS.add (date_text w) (prop bookingData "kids")
                 (prop bookingData "adults"))
              (set_db (<[("bookings", [id]) :=
                           booking_record bookingData (reading w)
                             (reading (ticked w))]> (db w))
                 (answered (ticked (ticked w))))).2.
Proof.
  intros Hw Hs. rewrite createBooking_after_insert.
  destruct (add_reliable "bookings"
              (booking_record bookingData (reading w) (reading (ticked w)))
              (ticked (ticked w)) Hw (storable_booking_record _ _ _ Hs))
    as (id & -> & Hfresh & Hid).
  exists id. eexists. split; [reflexivity|].
  set (w3 := set_db _ _).
  assert (reliable w3) as Hw3 by (by apply reliable_answered).
  split; [|split; [exact Hfresh|split; [|split; [exact Hid|reflexivity]]]].
  - by apply updateAvailability_stays_reliable.
  - rewrite updateAvailability_other_collections by done.
    apply lookup_insert_eq.
Qed.

(** X6. When the store answers and accepts the data, a booking made by
    [createBooking] for the date [d] is listed afterwards by
    [getBookingsByDate(d)] and by [getAllBookings], with the status pending,
    the date [d] and, as its id, the id that [createBooking] returned,
    unless the booking data had an [id] field of its own, which then takes
    its place. *)
Theorem createBooking_then_listed
    (w : world) (bookingData : obj) (d : string) :
  reliable w →
  Firestore.storable (VObj bookingData) = true →
  bookingData !! "date" = Some (VStr d) →
  ∃ id w1 byDate w2 all w3 listed,
    createBooking bookingData w
    = (Ok (VObj {[ "success" := VBool true; "id" := VStr id ]}), w1)
    ∧ getBookingsByDate (VStr d) w1
      = (Ok (VObj {[ "success" := VBool true; "bookings" := VArr byDate ]}), w2)
    ∧ getAllBookings w1
      = (Ok (VObj {[ "success" := VBool true; "bookings" := VArr all ]}), w3)
    ∧ VObj listed ∈ byDate ∧ VObj listed ∈ all
    ∧ listed !! "status" = Some (VStr "pending")
    ∧ listed !! "date" = Some (VStr d)
    ∧ listed !! "id" = Some (default (VStr id) (bookingData !! "id")).
Proof.
  intros Hw Hs Hd.
  destruct (createBooking_reliable bookingData w Hw Hs)
    as (id & w1 & Hrun & Hw1 & _ & Hdoc & _ & _).
  set (record := booking_record bookingData (reading w) (reading (ticked w)))
    in *.
  destruct (booking_record_fields bookingData (reading w) (reading (ticked w)))
    as (Hstatus & Hcreated & _ & Hother). fold record in Hstatus, Hcreated, Hother.
  destruct (where_eq_reliable "bookings" "date" (VStr d) w1 Hw1 eq_refl)
    as (byDate & Hq1 & Hin1).
  destruct (orderBy_desc_reliable "bookings" "createdAt" w1 Hw1)
    as (all & Hq2 & Hin2).
  destruct (with_id_fields id record) as (listed & Hlisted & Hid & Hfields).
  exists id, w1, (with_id <$> byDate). eexists. exists (with_id <$> all).
  eexists. exists listed.
  split; [exact Hrun|]. unfold getBookingsByDate, getAllBookings, try_catch.
  rewrite (bind_Ok _ _ _ _ _ Hq1), (bind_Ok _ _ _ _ _ Hq2).
  split; [reflexivity|]. split; [reflexivity|].
  assert (record !! "date" = Some (VStr d)) as Hdate
    by (by rewrite Hother).
  split; [|split; [|split; [|split]]].
  - rewrite <-Hlisted. apply list_elem_of_fmap_2, Hin1. split; [done|].
    exists (VStr d). split; [done|]. by apply equal_VStr.
  - rewrite <-Hlisted. apply list_elem_of_fmap_2, Hin2. split; [done|].
    by rewrite Hcreated.
  - by rewrite Hfields.
  - by rewrite Hfields.
  - rewrite Hid. by rewrite Hother.
Qed.

Lemma createBooking_then_listed_witness :
  reliable day_one
  ∧ Firestore.storable (VObj family_booking) = true
  ∧ family_booking !! "date" = Some (VStr "2024-06-01")
  ∧ ∃ id w1 byDate w2 all w3 listed,
      createBooking family_booking day_one
      = (Ok (VObj {[ "success" := VBool true; "id" := VStr id ]}), w1)
      ∧ getBookingsByDate (VStr "2024-06-01") w1
        = (Ok (VObj {[ "success" := VBool true; "bookings" := VArr byDate ]}),
           w2)
      ∧ getAllBookings w1
        = (Ok (VObj {[ "success" := VBool true; "bookings" := VArr all ]}), w3)
      ∧ VObj listed ∈ byDate ∧ VObj listed ∈ all
      ∧ listed !! "status" = Some (VStr "pending")
      ∧ listed !! "date" = Some (VStr "2024-06-01")
      ∧ listed !! "id" = Some (default (VStr id) (family_booking !! "id")).
Proof.
  assert (reliable day_one) as Hw by constructor.
  assert (Firestore.storable (VObj family_booking) = true) as Hs
    by (vm_compute; reflexivity).
  assert (family_booking !! "date" = Some (VStr "2024-06-01")) as Hd
    by (vm_compute; reflexivity).
  exact (conj Hw (conj Hs (conj Hd
           (createBooking_then_listed day_one family_booking "2024-06-01"
              Hw Hs Hd)))).
Defined.

(** X7. [deleteBooking] does not give the places of a booking back. When
    the store answers, after [createBooking] and then [deleteBooking] of the
    id it returned, the booking is gone and the counter of its slot is still
    the former value incremented by kids plus adults. *)
Theorem createBooking_then_deleteBooking
    (w : world) (bookingData : obj) (d t : string) (k a : Z) (ref : docref) :
  reliable w →
  Firestore.storable (VObj bookingData) = true →
  bookingData !! "date" = Some (VStr d) →
  bookingData !! "time" = Some (VStr t) →
  bookingData !! "kids" = Some (VNum k) →
  bookingData !! "adults" = Some (VNum a) →
  Firestore.doc_ref "availability" (VStr d) = Some ref →
  slot_key t = true →
  ∃ id w1 w2 data,
    createBooking bookingData w
    = (Ok (VObj {[ "success" := VBool true; "id" := VStr id ]}), w1)
    ∧ deleteBooking (VStr id) w1 = (Ok success, w2)
    ∧ db w2 !! ("bookings", [id]) = None
    ∧ db w1 !! ref = Some data ∧ db w2 !! ref = Some data
    ∧ booked t data
      = Firestore.incremented
          (booked t (default (default_day (VStr d)) (db w !! ref))) (k + a).
Proof.
  intros Hw Hs Hd Ht Hk Ha Href Hkey.
  destruct (createBooking_reliable bookingData w Hw Hs)
    as (id & w1 & Hrun & Hw1 & _ & Hdoc & Hid & Hw1eq).
  unfold prop in Hw1eq. rewrite Hd, Ht, Hk, Ha in Hw1eq. simpl in Hw1eq.
  change (JS.add _ (VNum k) (VNum a)) with (VNum (k + a)) in Hw1eq.
  set (w3 := set_db _ _) in Hw1eq.
  assert (reliable w3) as Hw3 by (by apply reliable_answered).
  destruct (updateAvailability_reliable w3 (VStr d) (VStr t) (k + a) ref
              ["slots"; t; "booked"] Hw3 Href (field_path_slot _ Hkey))
    as (w1' & Hupd & Hdb & _).
  rewrite Hupd in Hw1eq. simpl in Hw1eq. subst w1'.
  assert (ref ≠ ("bookings", [id])) as Hne.
  { intros ->. by apply doc_ref_collection in Href. }
  assert (db w3 !! ref = db w !! ref) as Hsame
    by (subst w3; simpl; by rewrite lookup_insert_ne).
  exists id, w1. unfold deleteBooking, try_catch.
  rewrite (bind_Ok _ _ _ _ _ (doc_Some _ _ _ _ Hid)).
  rewrite (bind_Ok _ _ _ _ _ (delete_reliable _ _ Hw1)).
  eexists _, _. split; [exact Hrun|]. split; [reflexivity|]. simpl.
  split; [apply lookup_delete_eq|].
  rewrite lookup_delete_ne by done. rewrite Hdb, lookup_insert_eq, Hsame.
  split; [reflexivity|]. split; [reflexivity|].
  unfold booked. by rewrite get_at_set_field.
Qed.

Lemma createBooking_then_deleteBooking_witness :
  reliable day_one
  ∧ Firestore.storable (VObj family_booking) = true
  ∧ family_booking !! "date" = Some (VStr "2024-06-01")
  ∧ family_booking !! "time" = Some (VStr "10:00")
  ∧ family_booking !! "kids" = Some (VNum 2)
  ∧ family_booking !! "adults" = Some (VNum 1)
  ∧ Firestore.doc_ref "availability" (VStr "2024-06-01")
    = Some ("availability", ["2024-06-01"])
  ∧ slot_key "10:00" = true
  ∧ ∃ id w1 w2 data,
      createBooking family_booking day_one
      = (Ok (VObj {[ "success" := VBool true; "id" := VStr id ]}), w1)
      ∧ deleteBooking (VStr id) w1 = (Ok success, w2)
      ∧ db w2 !! ("bookings", [id]) = None
      ∧ db w1 !! ("availability", ["2024-06-01"]) = Some data
      ∧ db w2 !! ("availability", ["2024-06-01"]) = Some data
      ∧ booked "10:00" data
        = Firestore.incremented
            (booked "10:00"
               (default (default_day (VStr "2024-06-01"))
                  (db day_one !! ("availability", ["2024-06-01"])))) (2 + 1).
Proof.
  assert (reliable day_one) as Hw by constructor.
  assert (Firestore.storable (VObj family_booking) = true) as Hs
    by (vm_compute; reflexivity).
  assert (family_booking !! "date" = Some (VStr "2024-06-01")) as Hd
    by (vm_compute; reflexivity).
  assert (family_booking !! "time" = Some (VStr "10:00")) as Ht
    by (vm_compute; reflexivity).
  assert (family_booking !! "kids" = Some (VNum 2)) as Hk
    by (vm_compute; reflexivity).
  assert (family_booking !! "adults" = Some (VNum 1)) as Ha
    by (vm_compute; reflexivity).
  exact (conj Hw (conj Hs (conj Hd (conj Ht (conj Hk (conj Ha
           (conj eq_refl (conj eq_refl
              (createBooking_then_deleteBooking day_one family_booking
                 "2024-06-01" "10:00" 2 1 ("availability", ["2024-06-01"])
                 Hw Hs Hd Ht Hk Ha eq_refl eq_refl))))))))).
Defined.

(** ** Merging updates *)

Lemma foldl_put_other (us : list (list string * Firestore.field_update)) :
  ∀ (data : obj) j,
    Forall (λ u, ∃ k v, u = ([k], Firestore.Put v)) us →
    [j] ∉ us.*1 →
    foldl Firestore.apply_update data us !! j = data !! j.
Proof.
  induction us as [|u us IH]; intros data j Hus Hj; [done|].
  apply Forall_cons in Hus as [(k & v & ->) Hus].
  rewrite fmap_cons, not_elem_of_cons in Hj. destruct Hj as [Hne Hj].
  simpl. rewrite IH by done.
  change (Firestore.set_field [k] (λ _, v) data) with (<[k := v]> data).
  rewrite lookup_insert_ne; [done|]. intros ->. done.
Qed.

Lemma foldl_put_in (us : list (list string * Firestore.field_update)) :
  ∀ (data : obj) j v,
    Forall (λ u, ∃ k v, u = ([k], Firestore.Put v)) us →
    NoDup us.*1 →
    ([j], Firestore.Put v) ∈ us →
    foldl Firestore.apply_update data us !! j = Some v.
Proof.
  induction us as [|u us IH]; intros data j v Hus Hnd Hin.
  { by apply not_elem_of_nil in Hin. }
  apply Forall_cons in Hus as [(k & x & ->) Hus].
  rewrite fmap_cons in Hnd. apply NoDup_cons in Hnd as [Hk Hnd].
  apply elem_of_cons in Hin as [[= -> ->]|Hin]; simpl.
  - rewrite foldl_put_other by done.
    change (Firestore.set_field [k] (λ _, x) data) with (<[k := x]> data).
    apply lookup_insert_eq.
  - by apply IH.
Qed.

(** X10. On an existing booking, when the store answers and the updates are
    plain fields (names without a dot, values that the store accepts),
    [updateBooking(id, updates)] returns the success envelope and lays the
    given fields and the new [updatedAt], read from the clock, over the
    stored record: the fields that are not named keep their values, an
    [updatedAt] among the updates is replaced by the clock's, and no other
    document changes. *)
Theorem updateBooking_merges
    (w : world) (bookingId : value) (updates data : obj) (ref : docref) :
  Firestore.doc_ref "bookings" bookingId = Some ref →
  db w !! ref = Some data →
  reliable w →
  map_Forall (λ k v, Firestore.field_path k = Some [k]
                     ∧ Firestore.storable v = true) updates →
  ∃ w',
    updateBooking bookingId updates w = (Ok success, w')
    ∧ db w'
      = <[ref := <["updatedAt" := VDate (reading w)]> updates ∪ data]> (db w).
Proof.
  intros Href Hdoc Hw Hplain. unfold updateBooking, try_catch.
  rewrite (bind_Ok _ _ _ _ _ (doc_Some _ _ _ _ Href)).
  rewrite (bind_Ok _ _ w (VDate (reading w)) (ticked w)) by reflexivity.
  set (fields := <["updatedAt" := VDate (reading w)]> updates).
  assert (map_Forall (λ k v, Firestore.field_path k = Some [k]
                             ∧ Firestore.storable v = true) fields) as Hfields.
  { by apply map_Forall_insert_2. }
  set (l := map_to_list (Firestore.Put <$> fields)).
  assert (∀ k u, (k, u) ∈ l ↔ ∃ v, u = Firestore.Put v ∧ fields !! k = Some v)
    as Hl.
  { intros k u. subst l. rewrite elem_of_map_to_list, lookup_fmap_Some.
    split; [intros (v & <- & Hv) | intros (v & -> & Hv)]; eauto. }
  assert (mapM Firestore.parse_update l
          = Some ((λ x, ([x.1], x.2)) <$> l)) as Hparse.
  { apply mapM_parse_plain, Forall_forall. intros [k u] (v & -> & Hv)%Hl.
    destruct (Hfields k v Hv) as [Hpath Hstor].
    unfold Firestore.parse_update. simpl. by rewrite Hpath, Hstor. }
  assert (reliable (ticked w)) as Hw1 by done.
  rewrite (bind_Ok _ _ _ _ _
             (update_reliable ref _ _ data (ticked w) Hw1 Hparse Hdoc)).
  eexists. split; [reflexivity|]. simpl. f_equal. apply map_eq. intros j.
  set (us := (λ x, ([x.1], x.2)) <$> l).
  assert (Forall (λ u, ∃ k v, u = ([k], Firestore.Put v)) us) as Hus.
  { apply Forall_forall. intros u ([k u'] & -> & (v & -> & _)%Hl)%list_elem_of_fmap.
    by exists k, v. }
  assert (us.*1 = (λ k, [k]) <$> l.*1) as Hkeys.
  { subst us. rewrite <-!list_fmap_compose. done. }
  destruct (fields !! j) as [v|] eqn:Hj.
  - rewrite (lookup_union_Some_l _ _ _ _ Hj).
    apply foldl_put_in; [done| |].
    + rewrite Hkeys. apply NoDup_fmap; [by intros ? ? [= ->]|].
      apply NoDup_fst_map_to_list.
    + apply list_elem_of_fmap. exists (j, Firestore.Put v).
      split; [done|]. apply Hl. eauto.
  - rewrite lookup_union_r by done. apply foldl_put_other; [done|].
    rewrite Hkeys. intros (k & [= <-] & ((k' & u) & -> & (v & -> & Hv)%Hl)%list_elem_of_fmap)%list_elem_of_fmap.
    simpl in *. congruence.
Qed.

Lemma updateBooking_merges_witness :
  Firestore.doc_ref "bookings" (VStr "b1") = Some ("bookings", ["b1"])
  ∧ db one_booking !! ("bookings", ["b1"])
    = Some (booking_record family_booking 0 0)
  ∧ reliable one_booking
  ∧ map_Forall (λ k v, Firestore.field_path k = Some [k]
                       ∧ Firestore.storable v = true) confirmed_for_three
  ∧ ∃ w',
      updateBooking (VStr "b1") confirmed_for_three one_booking
      = (Ok success, w')
      ∧ db w'
        = <[("bookings", ["b1"]) :=
              <["updatedAt" := VDate (reading one_booking)]> confirmed_for_three
              ∪ booking_record family_booking 0 0]> (db one_booking).
Proof.
  assert (reliable one_booking) as Hw by constructor.
  assert (db one_booking !! ("bookings", ["b1"])
          = Some (booking_record family_booking 0 0)) as Hdoc
    by (vm_compute; reflexivity).
  assert (map_Forall (λ k v, Firestore.field_path k = Some [k]
                             ∧ Firestore.storable v = true)
            confirmed_for_three) as Hplain.
  { apply map_Forall_insert_2; [|apply map_Forall_singleton];
      split; vm_compute; reflexivity. }
  exact (conj eq_refl (conj Hdoc (conj Hw (conj Hplain
           (updateBooking_merges one_booking (VStr "b1") confirmed_for_three
              (booking_record family_booking 0 0) ("bookings", ["b1"])
              eq_refl Hdoc Hw Hplain))))).
Defined.

(** ** Administrators *)

(** X15. When the store answers, [adminLogin] with the password of the
    account and an email that has a record in [admins] returns the success
    envelope with the user, leaves that user signed in and the documents as
    they were, and [isAdmin] then returns true. *)
Theorem adminLogin_admin (w : world) (email password : string) :
  reliable w →
  accounts w !! email = Some password →
  admin_record w email →
  ∃ w',
    adminLogin email password w
    = (Ok (VObj {[ "success" := VBool true;
                   "user" := VObj {[ "email" := VStr email ]} ]}), w')
    ∧ currentUser w' = Some email
    ∧ db w' = db w
    ∧ ∃ w'', isAdmin w' = (Ok (VBool true), w'').
Proof.
  intros Hw Hacc Hrec. unfold adminLogin, try_catch.
  rewrite (bind_Ok _ _ _ _ _ (signIn_reliable _ _ _ Hw Hacc)).
  set (w1 := set_currentUser (Some email) (answered w)).
  assert (reliable w1) as Hw1 by (by apply reliable_answered).
  destruct (admins_lookup w1 email Hw1) as (adminDoc & Hq & Hdocs).
  rewrite (bind_Ok _ _ _ _ _ Hq).
  assert (adminDoc ≠ []) as Hne by (by apply Hdocs).
  destruct adminDoc as [|x rest]; [done|].
  eexists. split; [reflexivity|]. split; [done|]. split; [done|].
  unfold isAdmin.
  rewrite (bind_Ok _ _ (answered w1) (Some email) (answered w1)) by reflexivity.
  destruct (admins_lookup (answered w1) email (reliable_answered _ Hw1))
    as (adminDoc' & Hq' & Hdocs').
  rewrite (bind_Ok _ _ _ _ _ Hq'). eexists.
  assert (adminDoc' ≠ []) as Hne' by (by apply Hdocs').
  by destruct adminDoc'.
Qed.

Lemma adminLogin_admin_witness :
  reliable desk
  ∧ accounts desk !! "owner@happyville.test" = Some "secret"
  ∧ admin_record desk "owner@happyville.test"
  ∧ ∃ w',
      adminLogin "owner@happyville.test" "secret" desk
      = (Ok (VObj {[ "success" := VBool true;
                     "user" :=
                       VObj {[ "email" := VStr "owner@happyville.test" ]} ]}),
         w')
      ∧ currentUser w' = Some "owner@happyville.test"
      ∧ db w' = db desk
      ∧ ∃ w'', isAdmin w' = (Ok (VBool true), w'').
Proof.
  assert (reliable desk) as Hw by constructor.
  assert (accounts desk !! "owner@happyville.test" = Some "secret") as Hacc
    by (vm_compute; reflexivity).
  assert (admin_record desk "owner@happyville.test") as Hrec
    by (exists "a1", {[ "email" := VStr "owner@happyville.test" ]};
        split; vm_compute; reflexivity).
  exact (conj Hw (conj Hacc (conj Hrec
           (adminLogin_admin desk "owner@happyville.test" "secret"
              Hw Hacc Hrec)))).
Defined.

(** X16. When the sign-in itself fails, because the identity provider
    reports an error or because the password is not the one of the account,
    [adminLogin] returns the failure envelope with the message of that
    error after one request, and the session and the documents are the ones
    from before. *)
Theorem adminLogin_not_authenticated (w : world) (email password : string) :
  (∀ msg, head (faults w) = Some (Some msg) →
     adminLogin email password w = (Ok (failure (Error msg)), answered w))
  ∧ (reliable w → accounts w !! email ≠ Some password →
     adminLogin email password w
     = (Ok (failure (Error Auth.wrong_credentials)), answered w))
  ∧ currentUser (answered w) = currentUser w
  ∧ db (answered w) = db w.
Proof.
  split; [|split; [|done]].
  - intros msg Hf. unfold adminLogin, try_catch, Auth.signInWithEmailAndPassword.
    assert (remote w = (Throw (Error msg), answered w)) as Hr
      by (unfold remote; by rewrite Hf).
    by rewrite (bind_Throw _ _ _ _ _ (bind_Throw _ _ _ _ _ Hr)).
  - intros Hw Hacc. unfold adminLogin, try_catch.
    rewrite (bind_Throw _ _ _ (Error Auth.wrong_credentials) (answered w));
      [done|].
    unfold Auth.signInWithEmailAndPassword.
    rewrite (bind_Ok _ _ _ _ _ (remote_reliable w Hw)).
    rewrite (bind_Ok _ _ (answered w) (accounts w !! email) (answered w))
      by reflexivity.
    by rewrite decide_False.
Qed.

Lemma adminLogin_not_authenticated_witness :
  head (faults offline_desk) = Some (Some "offline")
  ∧ adminLogin "owner@happyville.test" "secret" offline_desk
    = (Ok (failure (Error "offline")), answered offline_desk)
  ∧ reliable desk
  ∧ accounts desk !! "guest@happyville.test" ≠ Some "secret"
  ∧ adminLogin "guest@happyville.test" "secret" desk
    = (Ok (failure (Error Auth.wrong_credentials)), answered desk).
Proof.
  assert (reliable desk) as Hw by constructor.
  assert (accounts desk !! "guest@happyville.test" ≠ Some "secret") as Hacc
    by (vm_compute; discriminate).
  exact (conj eq_refl
           (conj (proj1 (adminLogin_not_authenticated offline_desk
                           "owner@happyville.test" "secret")
                    "offline" eq_refl)
              (conj Hw (conj Hacc
                 (proj1 (proj2 (adminLogin_not_authenticated desk
                                  "guest@happyville.test" "secret"))
                    Hw Hacc))))).
Defined.

(** X17. When the sign-in succeeds and the lookup of the admin record then
    fails, [adminLogin] returns the failure envelope with the message of
    the store, and the user stays signed in: the sign-out of the method is
    only on the path where the lookup finds no record. *)
Theorem adminLogin_lookup_fails
    (w : world) (email password msg : string) (rest : list (option string)) :
  faults w = None :: Some msg :: rest →
  accounts w !! email = Some password →
  ∃ w',
    adminLogin email password w = (Ok (failure (Error msg)), w')
    ∧ currentUser w' = Some email.
Proof.
  intros Hf Hacc. unfold adminLogin, try_catch.
  assert (Auth.signInWithEmailAndPassword email password w
          = (Ok {[ "user" := VObj {[ "email" := VStr email ]} ]},
             set_currentUser (Some email) (answered w))) as Hin.
  { unfold Auth.signInWithEmailAndPassword.
    rewrite (bind_Ok _ _ w () (answered w))
      by (unfold remote; by rewrite Hf).
    rewrite (bind_Ok _ _ (answered w) (accounts w !! email) (answered w))
      by reflexivity.
    by rewrite Hacc, decide_True by done. }
  rewrite (bind_Ok _ _ _ _ _ Hin).
  set (w1 := set_currentUser (Some email) (answered w)).
  assert (remote w1 = (Throw (Error msg), answered w1)) as Hr.
  { unfold remote. subst w1. simpl. by rewrite Hf. }
  rewrite (bind_Throw _ _ _ (Error msg) (answered w1)).
  { by eexists. }
  unfold Firestore.where_eq. simpl.
  by rewrite (bind_Throw _ _ _ _ _ Hr).
Qed.

Lemma adminLogin_lookup_fails_witness :
  faults shaky_desk = [None; Some "unavailable"]
  ∧ accounts shaky_desk !! "guest@happyville.test" = Some "pass"
  ∧ ∃ w',
      adminLogin "guest@happyville.test" "pass" shaky_desk
      = (Ok (failure (Error "unavailable")), w')
      ∧ currentUser w' = Some "guest@happyville.test".
Proof.
  assert (accounts shaky_desk !! "guest@happyville.test" = Some "pass") as Hacc
    by (vm_compute; reflexivity).
  exact (conj eq_refl (conj Hacc
           (adminLogin_lookup_fails shaky_desk "guest@happyville.test" "pass"
              "unavailable" [] eq_refl Hacc))).
Defined.

(** X18. When the identity provider answers, [adminLogout] returns the
    success envelope and ends the session, so that [isAdmin] then returns
    false without a request. When the provider reports an error,
    [adminLogout] returns the failure envelope with its message and the
    session is the one from before. *)
Theorem adminLogout_ends_session (w : world) :
  (reliable w →
   adminLogout w = (Ok success, set_currentUser None (answered w))
   ∧ isAdmin (set_currentUser None (answered w))
     = (Ok (VBool false), set_currentUser None (answered w)))
  ∧ (∀ msg, head (faults w) = Some (Some msg) →
       adminLogout w = (Ok (failure (Error msg)), answered w)
       ∧ currentUser (answered w) = currentUser w).
Proof.
  split.
  - intros Hw. unfold adminLogout, try_catch.
    rewrite (bind_Ok _ _ _ _ _ (signOut_reliable _ Hw)).
    split; [reflexivity | by apply isAdmin_no_session].
  - intros msg Hf. unfold adminLogout, try_catch, Auth.signOut.
    assert (remote w = (Throw (Error msg), answered w)) as Hr
      by (unfold remote; by rewrite Hf).
    by rewrite (bind_Throw _ _ _ _ _ (bind_Throw _ _ _ _ _ Hr)).
Qed.

Lemma adminLogout_ends_session_witness :
  reliable desk
  ∧ adminLogout desk = (Ok success, set_currentUser None (answered desk))
  ∧ isAdmin (set_currentUser None (answered desk))
    = (Ok (VBool false), set_currentUser None (answered desk))
  ∧ head (faults offline_desk) = Some (Some "offline")
  ∧ adminLogout offline_desk
    = (Ok (failure (Error "offline")), answered offline_desk)
  ∧ currentUser (answered offline_desk) = currentUser offline_desk.
Proof.
  assert (reliable desk) as Hw by constructor.
  exact (conj Hw
           (conj (proj1 (proj1 (adminLogout_ends_session desk) Hw))
              (conj (proj2 (proj1 (adminLogout_ends_session desk) Hw))
                 (conj eq_refl
                    (proj2 (adminLogout_ends_session offline_desk)
                       "offline" eq_refl))))).
Defined.

(** X19. [isAdmin] has no [try]: with a user signed in, an error of the
    store during the lookup of the admin record is not turned into false,
    it is thrown to the caller. *)
Theorem isAdmin_throws (w : world) (email msg : string) :
  currentUser w = Some email →
  head (faults w) = Some (Some msg) →
  isAdmin w = (Throw (Error msg), answered w).
Proof.
  intros Huser Hf. unfold isAdmin.
  rewrite (bind_Ok _ _ w (currentUser w) w) by reflexivity. rewrite Huser.
  assert (remote w = (Throw (Error msg), answered w)) as Hr
    by (unfold remote; by rewrite Hf).
  unfold Firestore.where_eq. simpl.
  by rewrite (bind_Throw _ _ _ _ _ (bind_Throw _ _ _ _ _ Hr)).
Qed.

Lemma isAdmin_throws_witness :
  currentUser offline_desk = Some "owner@happyville.test"
  ∧ head (faults offline_desk) = Some (Some "offline")
  ∧ isAdmin offline_desk = (Throw (Error "offline"), answered offline_desk).
Proof.
  exact (conj eq_refl (conj eq_refl
           (isAdmin_throws offline_desk "owner@happyville.test" "offline"
              eq_refl eq_refl))).
Defined.

(** ** What the methods leave alone *)

(** X20. [getAllBookings], [getBookingsByDate], [getActivities], [isAdmin],
    [adminLogin] and [adminLogout] never write to the store: for every
    argument, and whether the store answers or fails, the documents after
    the call are the documents before it. *)
Theorem reading_methods_keep_documents (w : world) :
  db (getAllBookings w).2 = db w
  ∧ (∀ date, db (getBookingsByDate date w).2 = db w)
  ∧ db (getActivities w).2 = db w
  ∧ db (isAdmin w).2 = db w
  ∧ (∀ email password, db (adminLogin email password w).2 = db w)
  ∧ db (adminLogout w).2 = db w.
Proof.
  split; [apply (keeps_getAllBookings same_documents)|].
  split; [intros; apply (keeps_getBookingsByDate same_documents)|].
  split; [apply (keeps_getActivities same_documents)|].
  split; [apply (keeps_isAdmin same_documents)|].
  split; [intros; by apply (keeps_adminLogin same_documents)|].
  by apply (keeps_adminLogout same_documents).
Qed.

(** X21. The booking, activity and availability methods never touch the
    session: for every argument, and whether the store answers or fails,
    the signed-in user after the call is the one before it. *)
Theorem data_methods_keep_session (w : world) :
  (∀ bookingData, currentUser (createBooking bookingData w).2 = currentUser w)
  ∧ currentUser (getAllBookings w).2 = currentUser w
  ∧ (∀ date, currentUser (getBookingsByDate date w).2 = currentUser w)
  ∧ (∀ bookingId updates,
       currentUser (updateBooking bookingId updates w).2 = currentUser w)
  ∧ (∀ bookingId, currentUser (deleteBooking bookingId w).2 = currentUser w)
  ∧ currentUser (getActivities w).2 = currentUser w
  ∧ (∀ date, currentUser (getAvailability date w).2 = currentUser w)
  ∧ (∀ date time change,
       currentUser (updateAvailability date time change w).2 = currentUser w).
Proof.
  split; [intros; by apply (keeps_createBooking same_session)|].
  split; [apply (keeps_getAllBookings same_session)|].
  split; [intros; apply (keeps_getBookingsByDate same_session)|].
  split; [intros; by apply (keeps_updateBooking same_session)|].
  split; [intros; by apply (keeps_deleteBooking same_session)|].
  split; [apply (keeps_getActivities same_session)|].
  split; [intros; by apply (keeps_getAvailability same_session)|].
  intros; by apply (keeps_updateAvailability same_session).
Qed.

Lemma writes_only_put colls (ref : docref) data w :
  ref.1 ∈ colls → writes_only colls w (set_db (<[ref := data]> (db w)) w).
Proof.
  intros Hin ref' Hnot. simpl. apply lookup_insert_ne. by intros <-.
Qed.

Lemma writes_only_delete colls (ref : docref) w :
  ref.1 ∈ colls → writes_only colls w (set_db (delete ref (db w)) w).
Proof.
  intros Hin ref' Hnot. simpl. apply lookup_delete_ne. by intros <-.
Qed.

(** X22. Each writing method stays inside its collections, for every
    argument and whether the store answers or fails: [createBooking] changes
    documents of [bookings] and [availability] only, [updateBooking] and
    [deleteBooking] of [bookings] only, [getAvailability] and
    [updateAvailability] of [availability] only. *)
Theorem methods_write_their_collections (w : world) (ref : docref) :
  (ref.1 ≠ "bookings" → ref.1 ≠ "availability" →
   ∀ bookingData, db (createBooking bookingData w).2 !! ref = db w !! ref)
  ∧ (ref.1 ≠ "bookings" →
     (∀ bookingId updates,
        db (updateBooking bookingId updates w).2 !! ref = db w !! ref)
     ∧ (∀ bookingId, db (deleteBooking bookingId w).2 !! ref = db w !! ref))
  ∧ (ref.1 ≠ "availability" →
     (∀ date, db (getAvailability date w).2 !! ref = db w !! ref)
     ∧ (∀ date time change,
          db (updateAvailability date time change w).2 !! ref = db w !! ref)).
Proof.
  split; [|split].
  - intros Hb Ha bookingData.
    apply (keeps_createBooking (writes_only ["availability"; "bookings"])).
    + intros w' r data [Hr|Hr]; apply writes_only_put; rewrite Hr;
        [by left | by right; left].
    + rewrite !not_elem_of_cons. split; [done|]. split; [done|].
      apply not_elem_of_nil.
  - intros Hb. split; intros.
    + apply (keeps_updateBooking (writes_only ["bookings"])).
      * intros w' r data Hr. apply writes_only_put. rewrite Hr. by left.
      * by intros ?%list_elem_of_singleton.
    + apply (keeps_deleteBooking (writes_only ["bookings"])).
      * intros w' r Hr. apply writes_only_delete. rewrite Hr. by left.
      * by intros ?%list_elem_of_singleton.
  - intros Ha. split; intros.
    + apply (keeps_getAvailability (writes_only ["availability"])).
      * intros w' r data Hr. apply writes_only_put. rewrite Hr. by left.
      * by intros ?%list_elem_of_singleton.
    + apply (keeps_updateAvailability (writes_only ["availability"])).
      * intros w' r data Hr. apply writes_only_put. rewrite Hr. by left.
      * by intros ?%list_elem_of_singleton.
Qed.

Lemma methods_write_their_collections_witness :
  db (createBooking family_booking desk).2 !! ("admins", ["a1"])
  = db desk !! ("admins", ["a1"])
  ∧ db (deleteBooking (VStr "a1") desk).2 !! ("admins", ["a1"])
    = db desk !! ("admins", ["a1"])
  ∧ db (updateAvailability (VStr "a1") (VStr "10:00") (VNum 1) desk).2
      !! ("admins", ["a1"])
    = db desk !! ("admins", ["a1"]).
Proof.
  assert (("admins", ["a1"]).1 ≠ "bookings") as Hb by discriminate.
  assert (("admins", ["a1"]).1 ≠ "availability") as Ha by discriminate.
  exact (conj
           (proj1 (methods_write_their_collections desk ("admins", ["a1"]))
              Hb Ha family_booking)
           (conj
              (proj2 (proj1 (proj2 (methods_write_their_collections desk
                                      ("admins", ["a1"]))) Hb) (VStr "a1"))
              (proj2 (proj2 (proj2 (methods_write_their_collections desk
                                      ("admins", ["a1"]))) Ha)
                 (VStr "a1") (VStr "10:00") (VNum 1)))).
Defined.
